(** * MentOS kernel heap (mentos/src/mem/kheap.c)

    A shallow embedding of the block manager behind the [brk] system call:
    the in-band block headers, the two linked lists threaded through them,
    best-fit search, split, merge, heap growth, and the [sys_brk] entry
    point.  Memory is byte addressed; every field access is a 32-bit
    little-endian load or store, as on the i686 target of the kernel. *)

From Stdlib Require Import ZArith List Lia String Bool.
Import ListNotations.
Open Scope Z_scope.

(** ** Outcomes

    [assert] stops the kernel; loops are run on a fuel budget. *)

Inductive result (A : Type) : Type :=
| Ok (a : A)
| AssertFail (msg : string)
| OutOfFuel.

Arguments Ok {A} a.
Arguments AssertFail {A} msg.
Arguments OutOfFuel {A}.

Definition bind {A B : Type} (r : result A) (k : A -> result B) : result B :=
  match r with
  | Ok a => k a
  | AssertFail msg => AssertFail msg
  | OutOfFuel => OutOfFuel
  end.

Notation "x <- e ;; k" := (bind e (fun x => k))
  (at level 61, e at next level, right associativity).
Notation "e ;;; k" := (bind e (fun _ => k))
  (at level 61, right associativity).

Definition assert (c : bool) (msg : string) : result unit :=
  if c then Ok tt else AssertFail msg.

(** ** Machine words and memory *)

Definition wrap32 (x : Z) : Z := x mod 2 ^ 32.

Definition memory : Type := Z -> Z.

Definition load8 (m : memory) (a : Z) : Z := m (wrap32 a) mod 256.

Definition store8 (m : memory) (a v : Z) : memory :=
  fun x => if x =? wrap32 a then v mod 256 else m x.

Definition load32 (m : memory) (a : Z) : Z :=
  load8 m a + 256 * load8 m (a + 1)
  + 65536 * load8 m (a + 2) + 16777216 * load8 m (a + 3).

Definition store32 (m : memory) (a v : Z) : memory :=
  store8 (store8 (store8 (store8 m a v)
                         (a + 1) (v / 256))
                 (a + 2) (v / 65536))
         (a + 3) (v / 16777216).

(** [memset(dst, 0, len)] *)
Definition memset0 (m : memory) (dst len : Z) : memory :=
  fun x => if (dst <=? x) && (x <? dst + len) then 0 else m x.

(** Two memories that no load can tell apart. *)
Definition mem_eq (m m' : memory) : Prop := forall a, load8 m a = load8 m' a.

Definition NULL : Z := 0.

(** ** [block_t] and [heap_header_t]

    Five 32-bit fields, in declaration order. *)

Definition sizeof_block_t : Z := 20.
Definition sizeof_heap_header_t : Z := 12.
Definition OVERHEAD : Z := sizeof_block_t.

Definition blk_size (m : memory) (b : Z) : Z := load32 m b.
Definition blk_nextfree (m : memory) (b : Z) : Z := load32 m (b + 4).
Definition blk_prevfree (m : memory) (b : Z) : Z := load32 m (b + 8).
Definition blk_prev (m : memory) (b : Z) : Z := load32 m (b + 12).
Definition blk_next (m : memory) (b : Z) : Z := load32 m (b + 16).

Definition set_size (m : memory) (b v : Z) : memory := store32 m b v.
Definition set_nextfree (m : memory) (b v : Z) : memory := store32 m (b + 4) v.
Definition set_prevfree (m : memory) (b v : Z) : memory := store32 m (b + 8) v.
Definition set_prev (m : memory) (b v : Z) : memory := store32 m (b + 12) v.
Definition set_next (m : memory) (b v : Z) : memory := store32 m (b + 16) v.

Definition hdr_head (m : memory) (h : Z) : Z := load32 m h.
Definition hdr_tail (m : memory) (h : Z) : Z := load32 m (h + 4).
Definition hdr_free (m : memory) (h : Z) : Z := load32 m (h + 8).

Definition set_head (m : memory) (h v : Z) : memory := store32 m h v.
Definition set_tail (m : memory) (h v : Z) : memory := store32 m (h + 4) v.
Definition set_free (m : memory) (h v : Z) : memory := store32 m (h + 8) v.

(** ** The size/flag macros *)

Definition BLOCK_REAL_SIZE (size : Z) : Z := Z.land size 0xFFFFFFFE.

Definition BLOCK_IS_FREE (m : memory) (block : Z) : Z :=
  Z.land (blk_size m block) 0x00000001.

Definition BLOCK_SET_FREE (m : memory) (block : Z) : memory :=
  set_size m block (Z.lor (blk_size m block) 0x00000001).

Definition BLOCK_SET_USED (m : memory) (block : Z) : memory :=
  set_size m block (Z.land (blk_size m block) 0xFFFFFFFE).

(** C truth value of an integer. *)
Definition truthy (x : Z) : bool := negb (x =? 0).

(** Modelled from the spec: [round_up] of math.h, which is not among the
    sources; section 4.1 gives it as rounding up to a multiple of the
    granularity.  The result is a [uint32_t]. *)
Definition round_up (number base : Z) : Z :=
  wrap32 ((number + base - 1) / base * base).

Definition __blkmngr_get_rounded_size (size : Z) : Z :=
  round_up (BLOCK_REAL_SIZE size) 16.

Definition __blkmngr_does_it_fit (m : memory) (block size : Z) : result bool :=
  assert (truthy block) "Received null block." ;;;
  Ok ((BLOCK_REAL_SIZE (blk_size m block) >=? BLOCK_REAL_SIZE size)
      && truthy (BLOCK_IS_FREE m block)).

(** ** Debug dump

    [__blkmngr_dump] only prints, but it walks both lists to their end. *)

Fixpoint walk (fuel : nat) (m : memory) (link : Z) (it : Z) : result unit :=
  if it =? NULL then Ok tt
  else match fuel with
       | O => OutOfFuel
       | S fuel' => walk fuel' m link (load32 m (it + link))
       end.

Definition __blkmngr_dump (fuel : nat) (m : memory) (header : Z) : result unit :=
  assert (truthy header) "Received a NULL heap header." ;;;
  (if truthy (hdr_head m header) then walk fuel m 16 (hdr_head m header)
   else Ok tt) ;;;
  (if truthy (hdr_free m header) then walk fuel m 4 (hdr_free m header)
   else Ok tt).

(** ** Free-list manager *)

Definition __blkmngr_remove_from_freelist (m : memory) (header block : Z)
  : result memory :=
  assert (truthy header) "Received a NULL heap header." ;;;
  assert (truthy block) "Received null block." ;;;
  let m1 :=
    if block =? hdr_free m header then
      set_free m header (blk_nextfree m block)
    else if truthy (blk_prevfree m block) then
      set_nextfree m (blk_prevfree m block) (blk_nextfree m block)
    else m in
  let m2 :=
    if truthy (blk_nextfree m1 block) then
      set_prevfree m1 (blk_nextfree m1 block) (blk_prevfree m1 block)
    else m1 in
  let m3 := set_prevfree m2 block NULL in
  Ok (set_nextfree m3 block NULL).

Definition __blkmngr_add_to_freelist (m : memory) (header block : Z)
  : result memory :=
  assert (truthy header) "Received a NULL heap header." ;;;
  assert (truthy block) "Received null block." ;;;
  let m1 :=
    if truthy (hdr_free m header) then
      set_prevfree m (hdr_free m header) block
    else m in
  let m2 := set_prevfree m1 block NULL in
  let m3 := set_nextfree m2 block (hdr_free m2 header) in
  Ok (set_free m3 header block).

(** ** Best-fit search *)

Fixpoint best_fitting_loop (fuel : nat) (m : memory) (size it best_fitting : Z)
  : result Z :=
  if it =? NULL then Ok best_fitting
  else match fuel with
       | O => OutOfFuel
       | S fuel' =>
           fits <- __blkmngr_does_it_fit m it size ;;
           if negb fits then
             best_fitting_loop fuel' m size (blk_nextfree m it) best_fitting
           else if negb (truthy best_fitting)
                   || (BLOCK_REAL_SIZE (blk_size m it)
                       <? BLOCK_REAL_SIZE (blk_size m best_fitting)) then
             best_fitting_loop fuel' m size (blk_nextfree m it) it
           else
             best_fitting_loop fuel' m size (blk_nextfree m it) best_fitting
       end.

Definition __blkmngr_find_best_fitting (fuel : nat) (m : memory)
  (header size : Z) : result Z :=
  assert (truthy header) "Received a NULL heap header." ;;;
  best_fitting_loop fuel m size (hdr_free m header) NULL.

(** ** Neighbours in the address-ordered list *)

Definition __blkmngr_get_previous_block (m : memory) (header block : Z)
  : result Z :=
  assert (truthy header) "Received a NULL heap header." ;;;
  assert (truthy block) "Received null block." ;;;
  if block =? hdr_head m header then Ok NULL else Ok (blk_prev m block).

Definition __blkmngr_get_next_block (m : memory) (header block : Z)
  : result Z :=
  assert (truthy header) "Received a NULL heap header." ;;;
  assert (truthy block) "Received null block." ;;;
  if block =? hdr_tail m header then Ok NULL else Ok (blk_next m block).

(** ** Split and merge *)

Definition __blkmngr_split_block (m : memory) (header block size : Z)
  : result memory :=
  assert (truthy block) "Received NULL block." ;;;
  assert (truthy (BLOCK_IS_FREE m block)) "The block is not free." ;;;
  let split := wrap32 (block + OVERHEAD + size) in
  let m := set_prev m split block in
  let m := set_prevfree m split block in
  let m := set_next m split (blk_next m block) in
  let m := set_nextfree m split (blk_nextfree m block) in
  let m := set_next m block split in
  let m := set_nextfree m block split in
  let m := set_size m split
             (wrap32 (BLOCK_REAL_SIZE (blk_size m block) - OVERHEAD - size)) in
  let m := set_size m block (BLOCK_REAL_SIZE size) in
  let m := BLOCK_SET_FREE m split in
  Ok (if hdr_tail m header =? block then set_tail m header split else m).

Definition __blkmngr_merge_blocks (m : memory) (header block1 block2 : Z)
  : result memory :=
  assert (truthy block1) "Received NULL first block." ;;;
  assert (truthy block2) "Received NULL second block." ;;;
  assert (truthy (BLOCK_IS_FREE m block1)) "The first block is not free." ;;;
  assert (truthy (BLOCK_IS_FREE m block2)) "The second block is not free." ;;;
  assert (blk_next m block1 =? block2) "The blocks are not adjacent." ;;;
  m <- __blkmngr_remove_from_freelist m header block2 ;;
  let m := set_next m block1 (blk_next m block2) in
  let m := set_size m block1
             (wrap32 (BLOCK_REAL_SIZE (blk_size m block1)
                      + BLOCK_REAL_SIZE (blk_size m block2) + OVERHEAD)) in
  let m := BLOCK_SET_FREE m block1 in
  Ok (if hdr_tail m header =? block2 then set_tail m header block1 else m).

(** ** The process side: virtual areas and the memory descriptor *)

Record vm_area_struct_t : Type := mk_vm_area {
  vm_start : Z;
  vm_end : Z
}.

Record mm_struct_t : Type := mk_mm {
  start_brk : Z;
  brk : Z;
  mmap_list : list vm_area_struct_t
}.

Record state : Type := mk_state {
  mem : memory;
  mm : mm_struct_t
}.

(** Modelled from the spec: [find_vm_area] of mem/paging.h, which is not
    among the sources; section 6 names it as the accessor that finds the
    existing region, here the area that starts at the given address. *)
Definition find_vm_area (d : mm_struct_t) (start : Z)
  : option vm_area_struct_t :=
  find (fun a => vm_start a =? start) (mmap_list d).

(** Modelled from the spec: [create_vm_area] of mem/paging.h, which is not
    among the sources; section 6 gives it a start hint and a length, and the
    reserved range is [start, start + length). *)
Definition create_vm_area (d : mm_struct_t) (start size : Z)
  : mm_struct_t * vm_area_struct_t :=
  let area := mk_vm_area start (wrap32 (start + size)) in
  (mk_mm (start_brk d) (brk d) (area :: mmap_list d), area).

(** Modelled from the spec: the constant [M] of kernel.h, which is not among
    the sources; the heap is set to 4 Mb. *)
Definition M : Z := 1024 * 1024.

(** ** Heap growth

    The current task and its memory descriptor are the [mm] of the state,
    and the heap area is passed by value: the assertions that they are not
    null hold by construction and are not threaded through. *)

Definition __do_brk (d : mm_struct_t) (heap : vm_area_struct_t)
  (increment : Z) : mm_struct_t * Z :=
  let new_heap_top := wrap32 (brk d + increment) in
  if new_heap_top >? vm_end heap then (d, NULL)
  else
    let d' := mk_mm (start_brk d) new_heap_top (mmap_list d) in
    (d', wrap32 (brk d' - increment)).

(** ** Allocation and release *)

Definition __do_malloc (fuel : nat) (st : state) (heap : vm_area_struct_t)
  (size : Z) : result (state * Z) :=
  if size =? 0 then Ok (st, NULL)
  else
    let header := vm_start heap in
    let rounded_size := __blkmngr_get_rounded_size size in
    block <- __blkmngr_find_best_fitting fuel (mem st) header rounded_size ;;
    sb <-
      (if truthy block then
         m <- (if BLOCK_REAL_SIZE (blk_size (mem st) block) >? rounded_size
               then __blkmngr_split_block (mem st) header block rounded_size
               else Ok (mem st)) ;;
         m <- __blkmngr_remove_from_freelist m header block ;;
         Ok (mk_state m (mm st), block)
       else
         let (d, block) :=
           __do_brk (mm st) heap (wrap32 (rounded_size + OVERHEAD)) in
         assert (truthy block) "Failed to create a new block!" ;;;
         assert (truthy (hdr_tail (mem st) header)) "The tail is not set!" ;;;
         let m := set_next (mem st) (hdr_tail (mem st) header) block in
         let m := set_size m block rounded_size in
         let m := set_prev m block (hdr_tail m header) in
         let m := set_next m block NULL in
         let m := set_prevfree m block NULL in
         let m := set_nextfree m block NULL in
         Ok (mk_state m d, block)) ;;
    let (st', block) := sb : state * Z in
    let m := BLOCK_SET_USED (mem st') block in
    __blkmngr_dump fuel m header ;;;
    Ok (mk_state m (mm st'), wrap32 (block + OVERHEAD)).

Definition __do_free (fuel : nat) (st : state) (heap : vm_area_struct_t)
  (ptr : Z) : result state :=
  let header := vm_start heap in
  let block := wrap32 (ptr - OVERHEAD) in
  prev <- __blkmngr_get_previous_block (mem st) header block ;;
  next <- __blkmngr_get_next_block (mem st) header block ;;
  let m := BLOCK_SET_FREE (mem st) block in
  m <-
    (if truthy prev && truthy next
        && truthy (BLOCK_IS_FREE m prev) && truthy (BLOCK_IS_FREE m next) then
       m <- __blkmngr_merge_blocks m header prev block ;;
       __blkmngr_merge_blocks m header prev next
     else if truthy prev && truthy (BLOCK_IS_FREE m prev) then
       __blkmngr_merge_blocks m header prev block
     else if truthy next && truthy (BLOCK_IS_FREE m next) then
       m <- __blkmngr_merge_blocks m header block next ;;
       __blkmngr_add_to_freelist m header block
     else
       __blkmngr_add_to_freelist m header block) ;;
  __blkmngr_dump fuel m header ;;;
  Ok (mk_state m (mm st)).

(** ** The system call *)

(** [header + sizeof(heap_header_t)] on a [heap_header_t *]: the pointer
    moves by that many whole headers. *)
Definition header_plus (header n : Z) : Z :=
  wrap32 (header + n * sizeof_heap_header_t).

Definition heap_create (fuel : nat) (st : state)
  : result (state * vm_area_struct_t) :=
  let heap_size := 4 * M in
  let segment_size := heap_size + sizeof_heap_header_t + sizeof_block_t in
  let (d, heap) := create_vm_area (mm st) 0x40000000 segment_size in
  let m := memset0 (mem st) (vm_start heap) segment_size in
  let d := mk_mm (vm_start heap) (brk d) (mmap_list d) in
  let d := mk_mm (start_brk d)
             (wrap32 (vm_start heap + sizeof_heap_header_t)) (mmap_list d) in
  let header := vm_start heap in
  let m := set_head m header (header_plus header sizeof_heap_header_t) in
  let m := set_tail m header (header_plus header sizeof_heap_header_t) in
  let m := set_free m header (hdr_head m header) in
  let first := hdr_head m header in
  let m := set_size m first heap_size in
  let m := set_prev m first NULL in
  let m := set_next m first NULL in
  let m := set_nextfree m first NULL in
  let m := BLOCK_SET_FREE m first in
  __blkmngr_dump fuel m header ;;;
  Ok (mk_state m d, heap).

Definition sys_brk (fuel : nat) (st : state) (addr : Z) : result (state * Z) :=
  sh <- match find_vm_area (mm st) (start_brk (mm st)) with
        | Some heap => Ok (st, heap)
        | None => heap_create fuel st
        end ;;
  let (st, heap) := sh : state * vm_area_struct_t in
  if (addr >? vm_start heap) && (addr <? vm_end heap) then
    st <- __do_free fuel st heap addr ;;
    Ok (st, NULL)
  else
    __do_malloc fuel st heap addr.

(** ** Running a process

    A process with no areas, and a sequence of [brk] calls made by it;
    the returned values are collected in call order. *)

Definition boot : state :=
  mk_state (fun _ => 0xAA) (mk_mm 0 0 []).

Fixpoint run (fuel : nat) (st : state) (args : list Z)
  : result (state * list Z) :=
  match args with
  | [] => Ok (st, [])
  | a :: args' =>
      sr <- sys_brk fuel st a ;;
      let (st', r) := sr : state * Z in
      sl <- run fuel st' args' ;;
      let (st'', rs) := sl : state * list Z in
      Ok (st'', r :: rs)
  end.

(** ** Observations on a heap *)

(** The addresses met from [it] along the link at offset [link], up to the
    first null; [None] when [fuel] nodes did not reach it. *)
Fixpoint nodes (fuel : nat) (m : memory) (link : Z) (it : Z)
  : option (list Z) :=
  if it =? NULL then Some []
  else match fuel with
       | O => None
       | S fuel' =>
           match nodes fuel' m link (load32 m (it + link)) with
           | Some l => Some (it :: l)
           | None => None
           end
       end.

Definition block_list (fuel : nat) (m : memory) (header : Z) : option (list Z) :=
  nodes fuel m 16 (hdr_head m header).

Definition free_list (fuel : nat) (m : memory) (header : Z) : option (list Z) :=
  nodes fuel m 4 (hdr_free m header).

Definition is_free (m : memory) (b : Z) : bool := truthy (BLOCK_IS_FREE m b).

Definition real_size (m : memory) (b : Z) : Z := BLOCK_REAL_SIZE (blk_size m b).

Definition heap_base : Z := 0x40000000.

(** A list threaded through memory: [chain m link it l] when following the
    link at offset [link] from [it] visits exactly the nodes [l] and then
    reaches null. *)
Inductive chain (m : memory) (link : Z) : Z -> list Z -> Prop :=
| chain_nil : chain m link NULL []
| chain_cons (it : Z) (l : list Z) :
    it <> NULL ->
    chain m link (load32 m (it + link)) l ->
    chain m link it (it :: l).

(** What [__blkmngr_does_it_fit] answers on a non-null block. *)
Definition fits (m : memory) (size b : Z) : bool :=
  (real_size m b >=? BLOCK_REAL_SIZE size) && is_free m b.

(** One iteration of the best-fit scan, on the running candidate. *)
Definition pick (m : memory) (size best it : Z) : Z :=
  if fits m size it then
    if negb (truthy best) || (real_size m it <? real_size m best)
    then it else best
  else best.

(** The area reserved on the first call. *)
Definition heap_area : vm_area_struct_t :=
  mk_vm_area heap_base (heap_base + (4 * M + 32)).

(** [after args P]: the calls [args], made in order by a process that starts
    with no heap, all return, and [P] holds of the state they leave and of
    the values they returned. *)
Definition after (args : list Z) (P : state -> list Z -> Prop) : Prop :=
  match run 20 boot args with
  | Ok (st, rets) => P st rets
  | AssertFail _ => False
  | OutOfFuel => False
  end.

(** The memory left by the calls [args] ([boot]'s memory if they do not all
    return). *)
Definition mem_after (args : list Z) : memory :=
  match run 20 boot args with
  | Ok (st, _) => mem st
  | AssertFail _ => mem boot
  | OutOfFuel => mem boot
  end.

Definition state_after (args : list Z) : state :=
  match run 20 boot args with
  | Ok (st, _) => st
  | AssertFail _ => boot
  | OutOfFuel => boot
  end.

(** ** Layouts

    Where the words of a heap lie, for statements about heaps that are not
    corrupted: every header inside the 32-bit address space, no two of them
    sharing a byte. *)

Definition word_ok (a : Z) : Prop := 0 <= a /\ a + 4 <= 2 ^ 32.

Definition words_apart (a b : Z) : Prop := a + 4 <= b \/ b + 4 <= a.

Definition block_ok (b : Z) : Prop := 0 < b /\ b + sizeof_block_t <= 2 ^ 32.

Definition blocks_apart (b c : Z) : Prop :=
  b + sizeof_block_t <= c \/ c + sizeof_block_t <= b.

Definition header_ok (h : Z) : Prop :=
  0 < h /\ h + sizeof_heap_header_t <= 2 ^ 32.

Definition header_apart (h b : Z) : Prop :=
  h + sizeof_heap_header_t <= b \/ b + sizeof_block_t <= h.

(** Block headers inside the address space, pairwise disjoint. *)
Fixpoint separated (l : list Z) : Prop :=
  match l with
  | [] => True
  | b :: l' =>
      block_ok b /\ (forall c, In c l' -> blocks_apart b c) /\ separated l'
  end.

(** A free list with its back links: [dchain m p it l] when the nodes from
    [it] along [nextfree] are [l], then null, and the [prevfree] of each is
    the node before it, [p] for the first. *)
Inductive dchain (m : memory) : Z -> Z -> list Z -> Prop :=
| dchain_nil (p : Z) : dchain m p NULL []
| dchain_cons (p it : Z) (l : list Z) :
    it <> NULL ->
    blk_prevfree m it = p ->
    dchain m it (blk_nextfree m it) l ->
    dchain m p it (it :: l).

(** ** Checks that run

    Boolean forms of the layout predicates, to establish them on a heap that
    is given by evaluation. *)

Fixpoint dnodes (m : memory) (p it : Z) (l : list Z) : bool :=
  match l with
  | [] => it =? NULL
  | x :: l' =>
      (it =? x) && negb (x =? NULL) && (blk_prevfree m x =? p)
      && dnodes m x (blk_nextfree m x) l'
  end.

Fixpoint separatedb (l : list Z) : bool :=
  match l with
  | [] => true
  | b :: l' =>
      (0 <? b) && (b + sizeof_block_t <=? 2 ^ 32)
      && forallb (fun c => (b + sizeof_block_t <=? c)
                           || (c + sizeof_block_t <=? b)) l'
      && separatedb l'
  end.

Definition header_apartb (h : Z) (l : list Z) : bool :=
  forallb (fun b => (h + sizeof_heap_header_t <=? b)
                    || (b + sizeof_block_t <=? h)) l.

(** A heap in order: the block list [lb] and the free list [lf] end in null,
    the free list has consistent back links, no two headers overlap, the
    free list is part of the block list, and a block is on the free list
    exactly when its flag is set. *)
Definition heap_wf (m : memory) (header : Z) (lb lf : list Z) : Prop :=
  header_ok header
  /\ chain m 16 (hdr_head m header) lb
  /\ dchain m NULL (hdr_free m header) lf
  /\ separated lb
  /\ separated lf
  /\ (forall b, In b lf -> In b lb)
  /\ (forall b, In b lb -> header_apart header b)
  /\ (forall b, In b lb -> (is_free m b = true <-> In b lf)).

(** ** The C library on top of the call (libc/src/stdlib.c)

    [malloc] and [free] reach the kernel through the brk system call.
    Modelled from the spec: the call stub [__inline_syscall1] of
    system/syscall_types.h, which is not among the sources; section 6 gives
    the call as the sole boundary of the allocator, one argument in and one
    value out, so the stub is the call of [sys_brk] on the same memory.
    The library's [assert] stops the process. *)

Definition MALLOC_MAGIC_NUMBER : Z := 0x600DC0DE.

(** [malloc_header_t]: the magic number, then the size. *)
Definition sizeof_malloc_header_t : Z := 8.

Definition malloc_header_to_ptr (header : Z) : Z :=
  wrap32 (header + sizeof_malloc_header_t).

Definition ptr_to_malloc_header (ptr : Z) : Z :=
  wrap32 (ptr - sizeof_malloc_header_t).

Definition malloc (fuel : nat) (st : state) (size : Z) : result (state * Z) :=
  if size =? 0 then Ok (st, NULL)
  else
    sp <- sys_brk fuel st (wrap32 (size + sizeof_malloc_header_t)) ;;
    let (st, ptr) := sp : state * Z in
    if ptr =? 0 then Ok (st, NULL)
    else
      let header := ptr in
      let m := store32 (mem st) header MALLOC_MAGIC_NUMBER in
      let m := store32 m (header + 4) size in
      Ok (mk_state m (mm st), malloc_header_to_ptr header).

(** The pointer that [free] steps back by one header before the call is not
    read again; the call is made on the header. *)
Definition free (fuel : nat) (st : state) (ptr : Z) : result state :=
  let header := ptr_to_malloc_header ptr in
  assert (load32 (mem st) header =? MALLOC_MAGIC_NUMBER)
    "This is not a valid pointer." ;;;
  sr <- sys_brk fuel st header ;;
  Ok (fst sr).

(** The state and the value of a call that returned. *)
Definition state_of (r : result (state * Z)) : state :=
  match r with
  | Ok (st, _) => st
  | AssertFail _ => boot
  | OutOfFuel => boot
  end.

Definition returns (r : result (state * Z)) (p : Z) : bool :=
  match r with
  | Ok (_, q) => q =? p
  | AssertFail _ => false
  | OutOfFuel => false
  end.

(** * Properties *)

(** ** Bytes and words *)

Lemma wrap32_range (x : Z) : 0 <= wrap32 x < 2 ^ 32.
Proof. unfold wrap32. apply Z.mod_pos_bound. reflexivity. Qed.

Lemma wrap32_idem (x : Z) : wrap32 (wrap32 x) = wrap32 x.
Proof. unfold wrap32. apply Z.mod_mod. discriminate. Qed.

Lemma wrap32_small (x : Z) : 0 <= x < 2 ^ 32 -> wrap32 x = x.
Proof. intro H. unfold wrap32. apply Z.mod_small. exact H. Qed.

Lemma wrap32_offsets_differ (a i j : Z) :
  0 <= i < 4 -> 0 <= j < 4 -> i <> j -> wrap32 (a + i) <> wrap32 (a + j).
Proof.
  intros Hi Hj Hij Heq. unfold wrap32 in Heq.
  pose proof (Z.div_mod (a + i) (2 ^ 32)) as Di.
  pose proof (Z.div_mod (a + j) (2 ^ 32)) as Dj.
  change (2 ^ 32) with 4294967296 in *.
  lia.
Qed.

Lemma load8_range (m : memory) (a : Z) : 0 <= load8 m a < 256.
Proof. unfold load8. apply Z.mod_pos_bound. reflexivity. Qed.

Lemma load8_wrap (m : memory) (a b : Z) :
  wrap32 a = wrap32 b -> load8 m a = load8 m b.
Proof. unfold load8. intros ->. reflexivity. Qed.

Lemma load8_store8 (m : memory) (a v b : Z) :
  load8 (store8 m a v) b =
  if wrap32 b =? wrap32 a then v mod 256 else load8 m b.
Proof.
  unfold load8, store8.
  destruct (wrap32 b =? wrap32 a); [apply Z.mod_mod; discriminate | reflexivity].
Qed.

Lemma load32_range (m : memory) (a : Z) : 0 <= load32 m a < 2 ^ 32.
Proof.
  unfold load32.
  pose proof (load8_range m a). pose proof (load8_range m (a + 1)).
  pose proof (load8_range m (a + 2)). pose proof (load8_range m (a + 3)).
  change (2 ^ 32) with 4294967296. lia.
Qed.

Lemma load32_null_bytes (m : memory) (a : Z) :
  load32 m a = 0 ->
  load8 m a = 0 /\ load8 m (a + 1) = 0 /\ load8 m (a + 2) = 0
  /\ load8 m (a + 3) = 0.
Proof.
  unfold load32.
  pose proof (load8_range m a). pose proof (load8_range m (a + 1)).
  pose proof (load8_range m (a + 2)). pose proof (load8_range m (a + 3)).
  lia.
Qed.

Lemma mem_eq_refl (m : memory) : mem_eq m m.
Proof. intro a. reflexivity. Qed.

Lemma mem_eq_trans (m1 m2 m3 : memory) :
  mem_eq m1 m2 -> mem_eq m2 m3 -> mem_eq m1 m3.
Proof. intros H12 H23 a. rewrite H12. apply H23. Qed.

Lemma mem_eq_load32 (m m' : memory) (a : Z) :
  mem_eq m m' -> load32 m a = load32 m' a.
Proof. intro H. unfold load32. rewrite !H. reflexivity. Qed.

(** Writing a null word over a null word changes nothing. *)
Lemma store32_null_over_null (m : memory) (a : Z) :
  load32 m a = 0 -> mem_eq (store32 m a 0) m.
Proof.
  intro H. apply load32_null_bytes in H. destruct H as (H0 & H1 & H2 & H3).
  intro x. unfold store32. rewrite !load8_store8.
  change (0 / 256) with 0. change (0 / 65536) with 0.
  change (0 / 16777216) with 0. change (0 mod 256) with 0.
  destruct (wrap32 x =? wrap32 (a + 3)) eqn:E3.
  { apply Z.eqb_eq in E3. rewrite (load8_wrap m x (a + 3) E3). congruence. }
  destruct (wrap32 x =? wrap32 (a + 2)) eqn:E2.
  { apply Z.eqb_eq in E2. rewrite (load8_wrap m x (a + 2) E2). congruence. }
  destruct (wrap32 x =? wrap32 (a + 1)) eqn:E1.
  { apply Z.eqb_eq in E1. rewrite (load8_wrap m x (a + 1) E1). congruence. }
  destruct (wrap32 x =? wrap32 a) eqn:E0.
  { apply Z.eqb_eq in E0. rewrite (load8_wrap m x a E0). congruence. }
  reflexivity.
Qed.

(** A word read back from where it was just written. *)
Lemma load32_store32_same (m : memory) (a v : Z) :
  load32 (store32 m a v) a = wrap32 v.
Proof.
  unfold load32, store32. rewrite !load8_store8.
  assert (N01 : wrap32 a <> wrap32 (a + 1)).
  { replace a with (a + 0) at 1 by lia. apply wrap32_offsets_differ; lia. }
  assert (N02 : wrap32 a <> wrap32 (a + 2)).
  { replace a with (a + 0) at 1 by lia. apply wrap32_offsets_differ; lia. }
  assert (N03 : wrap32 a <> wrap32 (a + 3)).
  { replace a with (a + 0) at 1 by lia. apply wrap32_offsets_differ; lia. }
  assert (N12 : wrap32 (a + 1) <> wrap32 (a + 2))
    by (apply wrap32_offsets_differ; lia).
  assert (N13 : wrap32 (a + 1) <> wrap32 (a + 3))
    by (apply wrap32_offsets_differ; lia).
  assert (N23 : wrap32 (a + 2) <> wrap32 (a + 3))
    by (apply wrap32_offsets_differ; lia).
  apply Z.eqb_neq in N01, N02, N03, N12, N13, N23.
  rewrite N01, N02, N03, N12, N13, N23, !Z.eqb_refl.
  unfold wrap32. change (2 ^ 32) with 4294967296.
  pose proof (Z.div_mod v 256) as D0.
  pose proof (Z.div_mod (v / 256) 256) as D1.
  pose proof (Z.div_mod (v / 65536) 256) as D2.
  pose proof (Z.div_mod (v / 16777216) 256) as D3.
  pose proof (Z.mod_pos_bound v 256) as B0.
  pose proof (Z.mod_pos_bound (v / 256) 256) as B1.
  pose proof (Z.mod_pos_bound (v / 65536) 256) as B2.
  pose proof (Z.mod_pos_bound (v / 16777216) 256) as B3.
  assert (E2 : v / 65536 = v / 256 / 256)
    by (rewrite Z.div_div by lia; reflexivity).
  assert (E3 : v / 16777216 = v / 65536 / 256)
    by (rewrite Z.div_div by lia; reflexivity).
  assert (E4 : v / 4294967296 = v / 16777216 / 256)
    by (rewrite Z.div_div by lia; reflexivity).
  pose proof (Z.div_mod v 4294967296) as D.
  lia.
Qed.

Lemma truthy_true (x : Z) : x <> NULL -> truthy x = true.
Proof.
  unfold truthy, NULL. intro H. apply Z.eqb_neq in H. rewrite H. reflexivity.
Qed.

Lemma truthy_false (x : Z) : truthy x = false -> x = NULL.
Proof.
  unfold truthy, NULL. intro H. apply negb_false_iff in H.
  apply Z.eqb_eq. exact H.
Qed.

(** ** Best-fit search *)

Section BestFit.

Variable m : memory.
Variable size : Z.

Lemma does_it_fit_fits (b : Z) :
  b <> NULL -> __blkmngr_does_it_fit m b size = Ok (fits m size b).
Proof.
  intro Hb. unfold __blkmngr_does_it_fit.
  rewrite (truthy_true b Hb). reflexivity.
Qed.

Lemma chain_nonnull (link it : Z) (l : list Z) :
  chain m link it l -> forall b, In b l -> b <> NULL.
Proof.
  induction 1 as [|it l Hit Hc IH]; intros b Hb; simpl in Hb.
  - contradiction.
  - destruct Hb as [<- | Hb]; [exact Hit | exact (IH b Hb)].
Qed.

(** The loop is the left fold of [pick] over the nodes of the free list. *)
Lemma best_fitting_loop_fold (l : list Z) :
  forall (fuel : nat) (it best : Z),
    chain m 4 it l ->
    (List.length l <= fuel)%nat ->
    best_fitting_loop fuel m size it best = Ok (fold_left (pick m size) l best).
Proof.
  induction l as [|x l IH]; intros fuel it best Hc Hf; inversion Hc; subst.
  - destruct fuel; reflexivity.
  - destruct fuel as [|fuel]; [simpl in Hf; lia|].
    simpl in Hf. cbn [best_fitting_loop fold_left].
    match goal with H : x <> NULL |- _ => pose proof H as Hx end.
    apply Z.eqb_neq in Hx. rewrite Hx.
    rewrite does_it_fit_fits by (apply Z.eqb_neq; exact Hx).
    cbn [bind]. unfold pick at 2. fold (real_size m x) (real_size m best).
    unfold blk_nextfree.
    destruct (fits m size x); cbn [negb].
    + destruct (negb (truthy best) || (real_size m x <? real_size m best));
        apply IH; (assumption || lia).
    + apply IH; (assumption || lia).
Qed.

(** Scanning on from a candidate [best] that is already held. *)
Lemma fold_pick_held (l : list Z) :
  forall best r : Z,
    best <> NULL ->
    (forall b, In b l -> b <> NULL) ->
    fold_left (pick m size) l best = r ->
    (r = best /\
     forall b, In b l -> fits m size b = true ->
               real_size m best <= real_size m b)
    \/ (exists l1 l2,
          l = l1 ++ r :: l2 /\ fits m size r = true
          /\ real_size m r < real_size m best
          /\ (forall b, In b l1 -> fits m size b = true ->
                        real_size m r < real_size m b)
          /\ (forall b, In b l2 -> fits m size b = true ->
                        real_size m r <= real_size m b)).
Proof.
  induction l as [|x l IH]; intros best r Hbest Hnn Hr; cbn [fold_left] in Hr.
  - left. split; [symmetry; exact Hr | intros b []].
  - assert (Hx : x <> NULL) by (apply Hnn; left; reflexivity).
    assert (Hl : forall b, In b l -> b <> NULL)
      by (intros b Hb; apply Hnn; right; exact Hb).
    unfold pick at 2 in Hr.
    rewrite (truthy_true best Hbest) in Hr. cbn [negb orb] in Hr.
    destruct (fits m size x) eqn:Fx.
    + destruct (real_size m x <? real_size m best) eqn:Lt.
      * apply Z.ltb_lt in Lt.
        destruct (IH x r Hx Hl Hr)
          as [[Er Hall] | (l1 & l2 & El & Fr & Hlt & H1 & H2)].
        -- right. exists [], l. clear Hr. subst r. cbn [app].
           split; [reflexivity|]. split; [exact Fx|]. split; [exact Lt|].
           split; [intros b []| exact Hall].
        -- right. exists (x :: l1), l2. cbn [app]. rewrite <- El.
           split; [reflexivity|]. split; [exact Fr|]. split; [lia|].
           split; [|exact H2].
           intros b [<- | Hb] Fb; [exact Hlt | exact (H1 b Hb Fb)].
      * apply Z.ltb_ge in Lt.
        destruct (IH best r Hbest Hl Hr)
          as [[Er Hall] | (l1 & l2 & El & Fr & Hlt & H1 & H2)].
        -- left. split; [exact Er|].
           intros b [<- | Hb] Fb; [exact Lt | exact (Hall b Hb Fb)].
        -- right. exists (x :: l1), l2. cbn [app]. rewrite <- El.
           split; [reflexivity|]. split; [exact Fr|]. split; [exact Hlt|].
           split; [|exact H2].
           intros b [<- | Hb] Fb; [lia | exact (H1 b Hb Fb)].
    + destruct (IH best r Hbest Hl Hr)
        as [[Er Hall] | (l1 & l2 & El & Fr & Hlt & H1 & H2)].
      * left. split; [exact Er|].
        intros b [<- | Hb] Fb; [congruence | exact (Hall b Hb Fb)].
      * right. exists (x :: l1), l2. cbn [app]. rewrite <- El.
        split; [reflexivity|]. split; [exact Fr|]. split; [exact Hlt|].
        split; [|exact H2].
        intros b [<- | Hb] Fb; [congruence | exact (H1 b Hb Fb)].
Qed.

(** Scanning from scratch. *)
Lemma fold_pick_fresh (l : list Z) :
  forall r : Z,
    (forall b, In b l -> b <> NULL) ->
    fold_left (pick m size) l NULL = r ->
    (r = NULL <-> forall b, In b l -> fits m size b = false)
    /\ (r <> NULL ->
        exists l1 l2,
          l = l1 ++ r :: l2 /\ fits m size r = true
          /\ (forall b, In b l1 -> fits m size b = true ->
                        real_size m r < real_size m b)
          /\ (forall b, In b l2 -> fits m size b = true ->
                        real_size m r <= real_size m b)).
Proof.
  induction l as [|x l IH]; intros r Hnn Hr; cbn [fold_left] in Hr.
  - subst r.
    split; [split; [intros _ b [] | reflexivity] | intros H; contradiction].
  - assert (Hx : x <> NULL) by (apply Hnn; left; reflexivity).
    assert (Hl : forall b, In b l -> b <> NULL)
      by (intros b Hb; apply Hnn; right; exact Hb).
    unfold pick at 2 in Hr. change (truthy NULL) with false in Hr.
    cbn [negb orb] in Hr.
    destruct (fits m size x) eqn:Fx.
    + pose proof (fold_pick_held l x r Hx Hl Hr) as Hheld.
      assert (Hrn : r <> NULL).
      { destruct Hheld as [[Er _] | (l1 & l2 & El & _)].
        - rewrite Er. exact Hx.
        - apply Hl. rewrite El. apply in_or_app. right. left. reflexivity. }
      split.
      * split; [intro E; contradiction|].
        intro Hno. rewrite (Hno x (or_introl eq_refl)) in Fx. discriminate.
      * intros _.
        destruct Hheld as [[Er Hall] | (l1 & l2 & El & Fr & Hlt & H1 & H2)].
        -- exists [], l. clear Hr. subst r. cbn [app].
           split; [reflexivity|]. split; [exact Fx|].
           split; [intros b []| exact Hall].
        -- exists (x :: l1), l2. cbn [app]. rewrite <- El.
           split; [reflexivity|]. split; [exact Fr|]. split; [|exact H2].
           intros b [<- | Hb] Fb; [exact Hlt | exact (H1 b Hb Fb)].
    + destruct (IH r Hl Hr) as [Hnull Hsome].
      split.
      * split.
        -- intros E b [<- | Hb]; [exact Fx | apply Hnull; assumption].
        -- intros Hno. apply Hnull. intros b Hb. apply Hno. right. exact Hb.
      * intros Hrn. destruct (Hsome Hrn) as (l1 & l2 & El & Fr & H1 & H2).
        exists (x :: l1), l2. cbn [app]. rewrite <- El.
        split; [reflexivity|]. split; [exact Fr|]. split; [|exact H2].
        intros b [<- | Hb] Fb; [congruence | exact (H1 b Hb Fb)].
Qed.

End BestFit.

Lemma nodes_chain (m : memory) (link : Z) (fuel : nat) :
  forall (it : Z) (l : list Z),
    nodes fuel m link it = Some l -> chain m link it l.
Proof.
  induction fuel as [|fuel IH]; intros it l H; cbn [nodes] in H.
  - destruct (it =? NULL) eqn:E; [|discriminate].
    apply Z.eqb_eq in E. injection H as <-. subst it. constructor.
  - destruct (it =? NULL) eqn:E.
    + apply Z.eqb_eq in E. injection H as <-. subst it. constructor.
    + apply Z.eqb_neq in E.
      destruct (nodes fuel m link (load32 m (it + link))) as [l'|] eqn:N;
        [|discriminate].
      injection H as <-. constructor; [exact E | apply IH; exact N].
Qed.

(** The flag mask leaves an even 32-bit size as it is. *)
Lemma BLOCK_REAL_SIZE_even (size : Z) :
  0 <= size < 2 ^ 32 -> Z.even size = true -> BLOCK_REAL_SIZE size = size.
Proof.
  intros Hr He. unfold BLOCK_REAL_SIZE.
  apply Z.even_spec in He. destruct He as [k ->].
  assert (E : 2 * k = Z.shiftl k 1).
  { rewrite Z.shiftl_mul_pow2 by lia. change (2 ^ 1) with 2. lia. }
  change (2 ^ 32) with 4294967296 in Hr.
  rewrite E. change 0xFFFFFFFE with (Z.shiftl (Z.ones 31) 1).
  rewrite <- Z.shiftl_land, Z.land_ones by lia.
  rewrite Z.mod_small; [reflexivity|].
  change (2 ^ 31) with 2147483648. lia.
Qed.

(** Every size the allocator searches for is such a size. *)
Lemma rounded_size_real (size : Z) :
  BLOCK_REAL_SIZE (__blkmngr_get_rounded_size size)
  = __blkmngr_get_rounded_size size.
Proof.
  unfold __blkmngr_get_rounded_size, round_up.
  apply BLOCK_REAL_SIZE_even; [apply wrap32_range|].
  set (k := (BLOCK_REAL_SIZE size + 16 - 1) / 16).
  unfold wrap32. change (2 ^ 32) with (268435456 * 16).
  rewrite Z.mul_mod_distr_r by lia.
  rewrite Z.even_mul. apply orb_true_r.
Qed.

(** C7 (amended).  On every heap whose free list is a null-terminated chain,
    the best-fit search returns; it compares block sizes with the requested
    size taken with its flag bit masked out, which is the requested size
    itself whenever that is even, as every rounded size is.  It answers
    not-found exactly when no block of the free list with its free flag set
    is that large; otherwise it answers such a block, of the smallest real
    size among them, and the first of that size met in the scan. *)
Theorem find_best_fitting_smallest_sufficient :
  forall (m : memory) (header size : Z) (l : list Z) (fuel : nat),
    header <> NULL ->
    chain m 4 (hdr_free m header) l ->
    (List.length l <= fuel)%nat ->
    exists r,
      __blkmngr_find_best_fitting fuel m header size = Ok r
      /\ (r = NULL <-> forall b, In b l -> fits m size b = false)
      /\ (r <> NULL ->
          exists l1 l2,
            l = l1 ++ r :: l2
            /\ is_free m r = true
            /\ BLOCK_REAL_SIZE size <= real_size m r
            /\ (forall b, In b l1 -> fits m size b = true ->
                          real_size m r < real_size m b)
            /\ (forall b, In b l2 -> fits m size b = true ->
                          real_size m r <= real_size m b))
      /\ (0 <= size < 2 ^ 32 -> Z.even size = true ->
          BLOCK_REAL_SIZE size = size).
Proof.
  intros m header size l fuel Hh Hc Hf.
  exists (fold_left (pick m size) l NULL).
  assert (Hnn : forall b, In b l -> b <> NULL)
    by (exact (chain_nonnull m 4 _ l Hc)).
  destruct (fold_pick_fresh m size l _ Hnn eq_refl) as [Hnull Hsome].
  split.
  - unfold __blkmngr_find_best_fitting. rewrite (truthy_true header Hh).
    cbn [assert bind]. apply best_fitting_loop_fold; assumption.
  - split; [exact Hnull|]. split.
    + intro Hr. destruct (Hsome Hr) as (l1 & l2 & El & Fr & H1 & H2).
      exists l1, l2. unfold fits in Fr. apply andb_prop in Fr.
      destruct Fr as [Fsz Ffree].
      split; [exact El|]. split; [exact Ffree|]. split.
      * apply Z.geb_le in Fsz. exact Fsz.
      * split; assumption.
    + apply BLOCK_REAL_SIZE_even.
Qed.

Lemma find_best_fitting_smallest_sufficient_witness :
  exists r,
    __blkmngr_find_best_fitting 2
      (mem_after [16; 16; 0x400000A4]) heap_base 16 = Ok r
    /\ r <> NULL.
Proof.
  destruct (find_best_fitting_smallest_sufficient
              (mem_after [16; 16; 0x400000A4]) heap_base 16
              [heap_base + 144; heap_base + 216] 2) as (r & Hr & Hnull & _).
  - discriminate.
  - apply (nodes_chain _ 4 5). vm_compute. reflexivity.
  - simpl. lia.
  - exists r. split; [exact Hr|].
    intro E. destruct Hnull as [Hnull _].
    specialize (Hnull E (heap_base + 144) (or_introl eq_refl)).
    vm_compute in Hnull. discriminate.
Defined.

(** C7, as stated, fails in two ways.  Asked for 17 bytes on a heap whose
    free list holds a free block of real size 16, the search answers that
    block.  And on a heap where a block with its free flag set is on no free
    list, the search for 2048 bytes answers not-found although that block is
    larger. *)
Lemma best_fit_is_relative_to_mask_and_free_list :
  (free_list 20 (mem_after [16; 16; 0x400000A4]) heap_base
   = Some [heap_base + 144; heap_base + 216]
   /\ __blkmngr_find_best_fitting 20
        (mem_after [16; 16; 0x400000A4]) heap_base 17
      = Ok (heap_base + 144)
   /\ is_free (mem_after [16; 16; 0x400000A4]) (heap_base + 144) = true
   /\ real_size (mem_after [16; 16; 0x400000A4]) (heap_base + 144) = 16
   /\ 16 < 17)
  /\ (block_list 20 (mem_after [64; 16; 0x400000A4; 16; 1024]) heap_base
      = Some [heap_base + 144; heap_base + 180; heap_base + 228;
              heap_base + 264; heap_base + 1308]
      /\ is_free (mem_after [64; 16; 0x400000A4; 16; 1024])
           (heap_base + 1308) = true
      /\ real_size (mem_after [64; 16; 0x400000A4; 16; 1024])
           (heap_base + 1308) = 4193140
      /\ 2048 <= 4193140
      /\ __blkmngr_find_best_fitting 20
           (mem_after [64; 16; 0x400000A4; 16; 1024]) heap_base 2048
         = Ok NULL).
Proof. vm_compute. repeat split; try reflexivity; intro H; discriminate H. Qed.

(** ** Free-list removal *)

(** C9 (amended).  Removal from the free list asserts only that the header
    and the block are non-null.  Called on any block, member of the free
    list or not, it raises no assertion and returns; and on a block that is
    not the free head and whose free links are null, as an allocated block's
    are, it leaves every byte of memory as it was. *)
Theorem remove_from_freelist_ignores_membership :
  forall (m : memory) (header block : Z),
    header <> NULL ->
    block <> NULL ->
    exists m',
      __blkmngr_remove_from_freelist m header block = Ok m'
      /\ (block <> hdr_free m header ->
          blk_prevfree m block = NULL ->
          blk_nextfree m block = NULL ->
          mem_eq m' m).
Proof.
  intros m header block Hh Hb.
  unfold __blkmngr_remove_from_freelist.
  rewrite (truthy_true header Hh), (truthy_true block Hb). cbn [assert bind].
  eexists. split; [reflexivity|].
  intros Hhead Hprev Hnext.
  apply Z.eqb_neq in Hhead. rewrite Hhead, Hprev.
  change (truthy NULL) with false. cbv iota.
  rewrite Hnext. change (truthy NULL) with false. cbv iota.
  unfold set_nextfree, set_prevfree, NULL.
  assert (E8 : mem_eq (store32 m (block + 8) 0) m)
    by (apply store32_null_over_null; exact Hprev).
  apply mem_eq_trans with (m2 := store32 m (block + 8) 0); [|exact E8].
  apply store32_null_over_null.
  rewrite (mem_eq_load32 _ m (block + 4) E8). exact Hnext.
Qed.

Lemma remove_from_freelist_ignores_membership_witness :
  exists m',
    __blkmngr_remove_from_freelist (mem_after [16; 16]) heap_base
      (heap_base + 180) = Ok m'
    /\ mem_eq m' (mem_after [16; 16]).
Proof.
  destruct (remove_from_freelist_ignores_membership
              (mem_after [16; 16]) heap_base (heap_base + 180))
    as (m' & Hrun & Hsame).
  - discriminate.
  - discriminate.
  - exists m'. split; [exact Hrun|].
    apply Hsame.
    + vm_compute. discriminate.
    + vm_compute. reflexivity.
    + vm_compute. reflexivity.
Defined.

(** C9, as stated, fails: after two allocations the block of the second one
    is used and is not on the free list, and removing it from the free list
    returns without any assertion, the free list being what it was. *)
Lemma remove_of_non_member_is_not_asserted :
  free_list 20 (mem_after [16; 16]) heap_base = Some [heap_base + 216]
  /\ ~ In (heap_base + 180) [heap_base + 216]
  /\ is_free (mem_after [16; 16]) (heap_base + 180) = false
  /\ match __blkmngr_remove_from_freelist (mem_after [16; 16]) heap_base
             (heap_base + 180) with
     | Ok m' => free_list 20 m' heap_base = Some [heap_base + 216]
     | AssertFail _ => False
     | OutOfFuel => False
     end.
Proof.
  split; [vm_compute; reflexivity|].
  split; [intros [H | []]; vm_compute in H; discriminate|].
  split; vm_compute; reflexivity.
Qed.

(** ** Exhaustion *)

Lemma do_brk_past_end (d : mm_struct_t) (heap : vm_area_struct_t)
  (increment : Z) :
  wrap32 (brk d + increment) > vm_end heap ->
  __do_brk d heap increment = (d, NULL).
Proof.
  intro H. unfold __do_brk. cbv zeta.
  apply Z.gtb_gt in H. rewrite H. reflexivity.
Qed.

Lemma do_malloc_growth_failure (fuel : nat) (st : state)
  (heap : vm_area_struct_t) (size : Z) :
  size <> 0 ->
  __blkmngr_find_best_fitting fuel (mem st) (vm_start heap)
    (__blkmngr_get_rounded_size size) = Ok NULL ->
  wrap32 (brk (mm st) + wrap32 (__blkmngr_get_rounded_size size + OVERHEAD))
  > vm_end heap ->
  __do_malloc fuel st heap size = AssertFail "Failed to create a new block!".
Proof.
  intros Hsz Hfind Hend. unfold __do_malloc.
  apply Z.eqb_neq in Hsz. rewrite Hsz. cbv zeta.
  rewrite Hfind. cbn [bind]. change (truthy NULL) with false. cbv iota.
  rewrite (do_brk_past_end _ _ _ Hend).
  reflexivity.
Qed.

(** X20.  When no free block satisfies the rounded size of a non-zero
    request and the new top, the brk top plus the rounded size plus one
    header computed modulo 2^32, is past the end of the region, heap growth
    answers null and leaves the memory descriptor, the brk top included, as
    it was; the allocation then stops on the assertion that a new block was
    created, and no result reaches the caller. *)
Theorem exhaustion_stops_on_assertion :
  forall (fuel : nat) (st : state) (heap : vm_area_struct_t) (size : Z),
    size <> 0 ->
    __blkmngr_find_best_fitting fuel (mem st) (vm_start heap)
      (__blkmngr_get_rounded_size size) = Ok NULL ->
    wrap32 (brk (mm st) + wrap32 (__blkmngr_get_rounded_size size + OVERHEAD))
    > vm_end heap ->
    __do_brk (mm st) heap
      (wrap32 (__blkmngr_get_rounded_size size + OVERHEAD)) = (mm st, NULL)
    /\ __do_malloc fuel st heap size
       = AssertFail "Failed to create a new block!".
Proof.
  intros fuel st heap size Hsz Hfind Hend. split.
  - apply do_brk_past_end. exact Hend.
  - apply do_malloc_growth_failure; assumption.
Qed.

Lemma exhaustion_stops_on_assertion_witness :
  __do_brk (mm (state_after [0])) heap_area
    (wrap32 (__blkmngr_get_rounded_size 4194320 + OVERHEAD))
  = (mm (state_after [0]), NULL)
  /\ __do_malloc 20 (state_after [0]) heap_area 4194320
     = AssertFail "Failed to create a new block!".
Proof.
  apply (exhaustion_stops_on_assertion 20 (state_after [0]) heap_area 4194320).
  - discriminate.
  - vm_compute. reflexivity.
  - vm_compute. reflexivity.
Defined.

(** C1: exhaustion, evaluated.  A first call of size zero leaves the region
    with its one free block of 4 Mb, the brk top 12 bytes in.  A request of
    4 Mb and 16 bytes finds no free block, and the top plus the rounded size
    plus one header is past the end of the region: heap growth answers null
    and leaves the descriptor as it was, but the allocation does not pass that
    null on to the caller, it stops on an assertion.  A request of 3 Gb finds
    no free block either and the same sum is past the end of the region, but
    it is past 2^32 as well and wraps to 32: heap growth succeeds, the brk
    top is moved down to 32, a block of 3 Gb is linked after the tail and the
    caller is given its payload address. *)
Theorem exhaustion_asserts_or_wraps :
  find_vm_area (mm (state_after [0])) (start_brk (mm (state_after [0])))
  = Some heap_area
  /\ brk (mm (state_after [0])) = heap_base + 12
  /\ block_list 20 (mem (state_after [0])) heap_base = Some [heap_base + 144]
  /\ real_size (mem (state_after [0])) (heap_base + 144) = 4 * M
  /\ (__blkmngr_find_best_fitting 20 (mem (state_after [0])) heap_base
        (__blkmngr_get_rounded_size 4194320) = Ok NULL
      /\ brk (mm (state_after [0]))
         + (__blkmngr_get_rounded_size 4194320 + OVERHEAD)
         > vm_end heap_area
      /\ __do_brk (mm (state_after [0])) heap_area
           (wrap32 (__blkmngr_get_rounded_size 4194320 + OVERHEAD))
         = (mm (state_after [0]), NULL)
      /\ __do_malloc 20 (state_after [0]) heap_area 4194320
         = AssertFail "Failed to create a new block!"
      /\ sys_brk 20 (state_after [0]) 4194320
         = AssertFail "Failed to create a new block!"
      /\ run 20 boot [0; 4194320]
         = AssertFail "Failed to create a new block!")
  /\ (__blkmngr_find_best_fitting 20 (mem (state_after [0])) heap_base
        (__blkmngr_get_rounded_size 0xC0000000) = Ok NULL
      /\ brk (mm (state_after [0]))
         + (__blkmngr_get_rounded_size 0xC0000000 + OVERHEAD)
         = 2 ^ 32 + 32
      /\ brk (mm (state_after [0]))
         + (__blkmngr_get_rounded_size 0xC0000000 + OVERHEAD)
         > vm_end heap_area
      /\ snd (__do_brk (mm (state_after [0])) heap_area
                (wrap32 (__blkmngr_get_rounded_size 0xC0000000 + OVERHEAD)))
         = heap_base + 12
      /\ after [0; 0xC0000000] (fun st rets =>
           rets = [NULL; heap_base + 12 + OVERHEAD]
           /\ brk (mm st) = 32
           /\ block_list 20 (mem st) heap_base
              = Some [heap_base + 144; heap_base + 12]
           /\ real_size (mem st) (heap_base + 12) = 0xC0000000
           /\ is_free (mem st) (heap_base + 12) = false)).
Proof.
  split; [vm_compute; reflexivity|].
  split; [vm_compute; reflexivity|].
  split; [vm_compute; reflexivity|].
  split; [vm_compute; reflexivity|].
  split.
  - split; [vm_compute; reflexivity|].
    split; [vm_compute; reflexivity|].
    split; [vm_compute; reflexivity|].
    split; [vm_compute; reflexivity|].
    split; vm_compute; reflexivity.
  - split; [vm_compute; reflexivity|].
    split; [vm_compute; reflexivity|].
    split; [vm_compute; reflexivity|].
    split; [vm_compute; reflexivity|].
    unfold after. vm_compute. repeat split; reflexivity.
Qed.

(** ** Lazy creation *)

Lemma walk_null (fuel : nat) (m : memory) (link : Z) :
  walk fuel m link NULL = Ok tt.
Proof. destruct fuel; reflexivity. Qed.





(** C5: the first call of a process, evaluated.  The region is
    [heap_base, heap_base + 4 Mb + 32), the brk top is 12 bytes in, just past
    the header, but head, tail and free all designate heap_base + 144, twelve
    headers in and not one; the 4 Mb block placed there ends 132 bytes past
    the end of the region. *)
Theorem first_block_lies_twelve_headers_in :
  after [0] (fun st rets =>
    rets = [NULL]
    /\ find_vm_area (mm st) (start_brk (mm st)) = Some heap_area
    /\ brk (mm st) = heap_base + sizeof_heap_header_t
    /\ hdr_head (mem st) heap_base
       = heap_base + sizeof_heap_header_t * sizeof_heap_header_t
    /\ hdr_tail (mem st) heap_base = hdr_head (mem st) heap_base
    /\ hdr_free (mem st) heap_base = hdr_head (mem st) heap_base
    /\ free_list 20 (mem st) heap_base = Some [heap_base + 144]
    /\ block_list 20 (mem st) heap_base = Some [heap_base + 144]
    /\ is_free (mem st) (heap_base + 144) = true
    /\ real_size (mem st) (heap_base + 144) = 4 * M
    /\ hdr_head (mem st) heap_base <> heap_base + sizeof_heap_header_t
    /\ heap_base + 144 + OVERHEAD + 4 * M = vm_end heap_area + 132).
Proof.
  unfold after. vm_compute.
  repeat split; try reflexivity; intro H; discriminate H.
Qed.

(** ** Dispatch *)

Lemma set_used_not_free (m : memory) (b : Z) :
  is_free (BLOCK_SET_USED m b) b = false.
Proof.
  unfold is_free, BLOCK_IS_FREE, BLOCK_SET_USED, blk_size, set_size.
  rewrite load32_store32_same. unfold wrap32.
  rewrite <- Z.land_ones by lia.
  rewrite <- !Z.land_assoc.
  change (Z.land (Z.ones 32) 1) with 1.
  change (Z.land 0xFFFFFFFE 1) with 0.
  rewrite Z.land_0_r. reflexivity.
Qed.

(** An allocation that returns for a non-zero size returns the payload
    address of a block, and that block is marked used. *)
Lemma do_malloc_returns_payload (fuel : nat) (st : state)
  (heap : vm_area_struct_t) (size : Z) (st' : state) (p : Z) :
  size <> 0 ->
  __do_malloc fuel st heap size = Ok (st', p) ->
  exists block,
    block <> NULL /\ p = wrap32 (block + OVERHEAD)
    /\ is_free (mem st') block = false.
Proof.
  intros Hsz H. unfold __do_malloc in H.
  apply Z.eqb_neq in Hsz. rewrite Hsz in H. cbv zeta in H.
  destruct (__blkmngr_find_best_fitting fuel (mem st) (vm_start heap)
              (__blkmngr_get_rounded_size size)) as [block| |];
    cbn [bind] in H; try discriminate.
  destruct (truthy block) eqn:T.
  - match type of H with
    | bind (bind ?s _) _ = _ => destruct s as [m1| |]
    end; cbn [bind] in H; try discriminate.
    destruct (__blkmngr_remove_from_freelist m1 (vm_start heap) block)
      as [m2| |]; cbn [bind mem mm] in H; try discriminate.
    destruct (__blkmngr_dump fuel (BLOCK_SET_USED m2 block) (vm_start heap));
      cbn [bind] in H; try discriminate.
    injection H as <- <-. exists block. cbn [mem].
    split; [|split; [reflexivity | apply set_used_not_free]].
    intro E. rewrite E in T. discriminate.
  - destruct (__do_brk (mm st) heap
                (wrap32 (__blkmngr_get_rounded_size size + OVERHEAD)))
      as [d block'].
    destruct (truthy block') eqn:T'; cbn [assert bind] in H; try discriminate.
    destruct (truthy (hdr_tail (mem st) (vm_start heap)));
      cbn [assert bind mem mm] in H; try discriminate.
    match type of H with
    | bind (__blkmngr_dump _ ?x _) _ = _ =>
        destruct (__blkmngr_dump fuel x (vm_start heap))
    end; cbn [bind] in H; try discriminate.
    injection H as <- <-. exists block'. cbn [mem].
    split; [|split; [reflexivity | apply set_used_not_free]].
    intro E. rewrite E in T'. discriminate.
Qed.

(** X21.  On an initialized heap, a call whose argument lies strictly
    between the start and the end of the region is the free path on that
    argument followed by a null answer.  Any other argument is an allocation
    of that many bytes: size zero answers null and changes nothing, and a
    non-zero size that no free block satisfies and whose new top, computed
    modulo 2^32, is past the end of the region stops the call on an
    assertion. *)
Theorem sys_brk_dispatch :
  forall (fuel : nat) (st : state) (heap : vm_area_struct_t) (arg : Z),
    find_vm_area (mm st) (start_brk (mm st)) = Some heap ->
    (vm_start heap < arg < vm_end heap ->
     sys_brk fuel st arg
     = (st' <- __do_free fuel st heap arg ;; Ok (st', NULL)))
    /\ (~ vm_start heap < arg < vm_end heap ->
        sys_brk fuel st arg = __do_malloc fuel st heap arg
        /\ (arg = 0 -> sys_brk fuel st arg = Ok (st, NULL))
        /\ (arg <> 0 ->
            __blkmngr_find_best_fitting fuel (mem st) (vm_start heap)
              (__blkmngr_get_rounded_size arg) = Ok NULL ->
            wrap32 (brk (mm st)
                    + wrap32 (__blkmngr_get_rounded_size arg + OVERHEAD))
            > vm_end heap ->
            sys_brk fuel st arg
            = AssertFail "Failed to create a new block!")).
Proof.
  intros fuel st heap arg Hheap. split.
  - intros [Hlo Hhi]. unfold sys_brk. rewrite Hheap. cbn [bind].
    apply Z.lt_gt, Z.gtb_gt in Hlo. apply Z.ltb_lt in Hhi.
    rewrite Hlo, Hhi. reflexivity.
  - intro Hout.
    assert (E : sys_brk fuel st arg = __do_malloc fuel st heap arg).
    { unfold sys_brk. rewrite Hheap. cbn [bind].
      destruct (arg >? vm_start heap) eqn:Hlo;
        destruct (arg <? vm_end heap) eqn:Hhi; try reflexivity.
      exfalso. apply Hout.
      apply Z.gtb_gt in Hlo. apply Z.ltb_lt in Hhi. lia. }
    rewrite E. split; [reflexivity|]. split.
    + intros ->. reflexivity.
    + intros Hnz Hfind Hend.
      apply do_malloc_growth_failure; assumption.
Qed.

Lemma sys_brk_dispatch_witness :
  sys_brk 20 (state_after [16]) 0x400000A4
  = (st' <- __do_free 20 (state_after [16]) heap_area 0x400000A4 ;;
     Ok (st', NULL))
  /\ sys_brk 20 (state_after [16]) 0 = Ok (state_after [16], NULL)
  /\ sys_brk 20 (state_after [0]) 4194320
     = AssertFail "Failed to create a new block!".
Proof.
  destruct (sys_brk_dispatch 20 (state_after [16]) heap_area 0x400000A4)
    as [Hin _]; [vm_compute; reflexivity|].
  destruct (sys_brk_dispatch 20 (state_after [16]) heap_area 0)
    as [_ Hout]; [vm_compute; reflexivity|].
  destruct (sys_brk_dispatch 20 (state_after [0]) heap_area 4194320)
    as [_ Hfail]; [vm_compute; reflexivity|].
  split; [|split].
  - apply Hin. vm_compute. split; reflexivity.
  - destruct Hout as (_ & Hzero & _).
    + vm_compute. intros [H _]. discriminate H.
    + apply Hzero. reflexivity.
  - destruct Hfail as (_ & _ & Hassert).
    + vm_compute. intros [H _]. discriminate H.
    + apply Hassert.
      * discriminate.
      * vm_compute. reflexivity.
      * vm_compute. reflexivity.
Defined.

(** C8: the call on an initialized heap, evaluated.  After a first call of
    size 16 the dispatch is as the claim has it: the payload address of the
    block, which lies inside the region, is freed and the call answers null;
    size zero answers null; size 16 answers the payload address of a block
    that is then marked used.  The failure case is not: after a first call
    of size zero, 4 Mb and 16 bytes is an argument outside the region that
    no free block and no growth can serve; heap growth answers null, and the
    call answers neither a payload address nor null, it stops on an
    assertion, so that the library's [malloc] never gets to its check for a
    null answer. *)
Theorem failed_allocation_stops_the_call :
  (find_vm_area (mm (state_after [16])) (start_brk (mm (state_after [16])))
   = Some heap_area
   /\ vm_start heap_area < heap_base + 144 + OVERHEAD < vm_end heap_area
   /\ returns (sys_brk 20 (state_after [16]) (heap_base + 144 + OVERHEAD))
        NULL = true
   /\ is_free (mem (state_of (sys_brk 20 (state_after [16])
                                (heap_base + 144 + OVERHEAD))))
        (heap_base + 144) = true
   /\ returns (sys_brk 20 (state_after [16]) 0) NULL = true
   /\ ~ vm_start heap_area < 16 < vm_end heap_area
   /\ returns (sys_brk 20 (state_after [16]) 16)
        (heap_base + 180 + OVERHEAD) = true
   /\ is_free (mem (state_of (sys_brk 20 (state_after [16]) 16)))
        (heap_base + 180) = false)
  /\ (find_vm_area (mm (state_after [0])) (start_brk (mm (state_after [0])))
      = Some heap_area
      /\ ~ vm_start heap_area < 4194320 < vm_end heap_area
      /\ __blkmngr_find_best_fitting 20 (mem (state_after [0])) heap_base
           (__blkmngr_get_rounded_size 4194320) = Ok NULL
      /\ __do_brk (mm (state_after [0])) heap_area
           (wrap32 (__blkmngr_get_rounded_size 4194320 + OVERHEAD))
         = (mm (state_after [0]), NULL)
      /\ sys_brk 20 (state_after [0]) 4194320
         = AssertFail "Failed to create a new block!"
      /\ (forall st' p, sys_brk 20 (state_after [0]) 4194320 <> Ok (st', p))
      /\ malloc 20 (state_after [0]) (4194320 - sizeof_malloc_header_t)
         = AssertFail "Failed to create a new block!").
Proof.
  assert (E : sys_brk 20 (state_after [0]) 4194320
              = AssertFail "Failed to create a new block!")
    by (vm_compute; reflexivity).
  split.
  - split; [vm_compute; reflexivity|].
    split; [vm_compute; split; reflexivity|].
    split; [vm_compute; reflexivity|].
    split; [vm_compute; reflexivity|].
    split; [vm_compute; reflexivity|].
    split; [vm_compute; intros [H _]; discriminate H|].
    split; vm_compute; reflexivity.
  - split; [vm_compute; reflexivity|].
    split; [vm_compute; intros [H _]; discriminate H|].
    split; [vm_compute; reflexivity|].
    split; [vm_compute; reflexivity|].
    split; [exact E|].
    split; [intros st' p; rewrite E; discriminate|].
    vm_compute. reflexivity.
Qed.

(** ** Call sequences, evaluated

    Blocks are named by their offset from [heap_base]; the first block is at
    144 and the payload of a block starts 20 bytes after it. *)

(** C2: allocation by heap growth, evaluated.  The first call takes the
    whole 4 Mb block, the second finds the free list empty and grows the
    heap.  The new block, carved at the old brk top 12 bytes into the
    region, is linked after the old tail at 144, so the list runs 144, 12
    and is not ascending; and the tail pointer still designates 144, whose
    next link is the new block, not the last node. *)
Theorem growth_leaves_tail_behind :
  free_list 20 (mem_after [4194304]) heap_base = Some []
  /\ brk (mm (state_after [4194304])) = heap_base + 12
  /\ after [4194304; 16] (fun st rets =>
       rets = [heap_base + 164; heap_base + 32]
       /\ brk (mm st) = heap_base + 12 + (16 + OVERHEAD)
       /\ block_list 20 (mem st) heap_base
          = Some [heap_base + 144; heap_base + 12]
       /\ hdr_head (mem st) heap_base = heap_base + 144
       /\ hdr_tail (mem st) heap_base = heap_base + 144
       /\ blk_next (mem st) (hdr_tail (mem st) heap_base) = heap_base + 12
       /\ blk_next (mem st) (heap_base + 12) = NULL
       /\ hdr_tail (mem st) heap_base <> heap_base + 12).
Proof.
  unfold after. vm_compute.
  repeat split; try reflexivity; intro H; discriminate H.
Qed.

(** C3: split with a free successor in the free list, evaluated.  After
    allocating 64 and 16 bytes, freeing the first and allocating 16 bytes
    again, the free list is 180, 264 but the back link of 264 still
    designates the used block 144.  A further allocation of 1024 bytes is
    carved from 264: the free list is still 180, 264 although 264 is now
    used, and the remainder 1308 has its free flag set and is on no free
    list. *)
Theorem split_breaks_free_list_membership :
  after [64; 16; 0x400000A4; 16] (fun st rets =>
    free_list 20 (mem st) heap_base = Some [heap_base + 180; heap_base + 264]
    /\ blk_nextfree (mem st) (heap_base + 180) = heap_base + 264
    /\ blk_prevfree (mem st) (heap_base + 264) = heap_base + 144
    /\ is_free (mem st) (heap_base + 144) = false)
  /\ after [64; 16; 0x400000A4; 16; 1024] (fun st rets =>
       rets = [heap_base + 164; heap_base + 248; NULL; heap_base + 164;
               heap_base + 284]
       /\ block_list 20 (mem st) heap_base
          = Some [heap_base + 144; heap_base + 180; heap_base + 228;
                  heap_base + 264; heap_base + 1308]
       /\ free_list 20 (mem st) heap_base
          = Some [heap_base + 180; heap_base + 264]
       /\ is_free (mem st) (heap_base + 264) = false
       /\ is_free (mem st) (heap_base + 1308) = true
       /\ ~ In (heap_base + 1308) [heap_base + 180; heap_base + 264]).
Proof.
  unfold after. vm_compute.
  repeat split; try reflexivity.
  intros [H | [H | []]]; discriminate H.
Qed.

(** C4: split of a block with no room for a remainder, evaluated.  After
    allocating 32 and 16 bytes and freeing the first, the block at 144 is
    free with real size 32 and is the best fit for 16 bytes, and 32 is less
    than 16 plus one header.  The next allocation of 16 bytes splits it all
    the same: the remainder is placed at 180, its size is 32 - 16 - 20
    wrapped to 32 bits, and its header runs over the header of the block at
    196, whose size field now holds an address. *)
Theorem split_runs_without_room :
  is_free (mem_after [32; 16; 0x400000A4]) (heap_base + 144) = true
  /\ real_size (mem_after [32; 16; 0x400000A4]) (heap_base + 144) = 32
  /\ blk_size (mem_after [32; 16; 0x400000A4]) (heap_base + 196) = 16
  /\ __blkmngr_find_best_fitting 20 (mem_after [32; 16; 0x400000A4])
       heap_base (__blkmngr_get_rounded_size 16) = Ok (heap_base + 144)
  /\ 32 < __blkmngr_get_rounded_size 16 + OVERHEAD
  /\ after [32; 16; 0x400000A4; 16] (fun st rets =>
       rets = [heap_base + 164; heap_base + 216; NULL; heap_base + 164]
       /\ blk_next (mem st) (heap_base + 144)
          = heap_base + 144 + OVERHEAD + 16
       /\ is_free (mem st) (heap_base + 180) = true
       /\ real_size (mem st) (heap_base + 180) = wrap32 (32 - 16 - OVERHEAD)
       /\ 32 - 16 - OVERHEAD = -4
       /\ real_size (mem st) (heap_base + 180) = 4294967292
       /\ blk_size (mem st) (heap_base + 196) = heap_base + 196).
Proof.
  unfold after. vm_compute. repeat split; reflexivity.
Qed.

(** C6: free next to a split remainder, evaluated.  After allocating 64 and
    16 bytes, freeing the first and allocating 16 bytes from it, the
    remainder 180 is free and precedes the block 228 of the second
    allocation, whose back link still designates 144.  Freeing that second
    allocation merges it with its successor only: 180 and 228 are then
    neighbours in the block list and both are marked free. *)
Theorem free_leaves_adjacent_free_blocks :
  after [64; 16; 0x400000A4; 16] (fun st rets =>
    rets = [heap_base + 164; heap_base + 248; NULL; heap_base + 164]
    /\ block_list 20 (mem st) heap_base
       = Some [heap_base + 144; heap_base + 180; heap_base + 228;
               heap_base + 264]
    /\ is_free (mem st) (heap_base + 180) = true
    /\ blk_next (mem st) (heap_base + 180) = heap_base + 228
    /\ blk_prev (mem st) (heap_base + 228) = heap_base + 144)
  /\ after [64; 16; 0x400000A4; 16; 0x400000F8] (fun st rets =>
       block_list 20 (mem st) heap_base
       = Some [heap_base + 144; heap_base + 180; heap_base + 228]
       /\ blk_next (mem st) (heap_base + 180) = heap_base + 228
       /\ is_free (mem st) (heap_base + 180) = true
       /\ is_free (mem st) (heap_base + 228) = true).
Proof.
  unfold after. vm_compute. repeat split; reflexivity.
Qed.

(** ** Words that do not overlap *)

Lemma load8_store32_other (m : memory) (a v x : Z) :
  word_ok a -> 0 <= x < 2 ^ 32 -> x < a \/ a + 4 <= x ->
  load8 (store32 m a v) x = load8 m x.
Proof.
  unfold word_ok. change (2 ^ 32) with 4294967296.
  intros Ha Hx Hd. unfold store32. rewrite !load8_store8.
  rewrite (wrap32_small x) by (change (2 ^ 32) with 4294967296; lia).
  rewrite (wrap32_small a), (wrap32_small (a + 1)), (wrap32_small (a + 2)),
    (wrap32_small (a + 3)) by (change (2 ^ 32) with 4294967296; lia).
  destruct (Z.eqb_spec x (a + 3)); [lia|].
  destruct (Z.eqb_spec x (a + 2)); [lia|].
  destruct (Z.eqb_spec x (a + 1)); [lia|].
  destruct (Z.eqb_spec x a); [lia|].
  reflexivity.
Qed.

Lemma load32_store32_other (m : memory) (a v b : Z) :
  word_ok a -> word_ok b -> words_apart a b ->
  load32 (store32 m a v) b = load32 m b.
Proof.
  unfold word_ok, words_apart. change (2 ^ 32) with 4294967296.
  intros Ha Hb Hd. unfold load32.
  rewrite !(load8_store32_other m a v);
    unfold word_ok; change (2 ^ 32) with 4294967296; lia.
Qed.

Lemma load32_store32_value (m : memory) (a v : Z) :
  0 <= v < 2 ^ 32 -> load32 (store32 m a v) a = v.
Proof. intro H. rewrite load32_store32_same. apply wrap32_small. exact H. Qed.

Ltac layout :=
  unfold word_ok, words_apart, block_ok, blocks_apart, header_ok, header_apart,
    OVERHEAD, sizeof_block_t, sizeof_heap_header_t, NULL in *;
  change (2 ^ 32) with 4294967296 in *; lia.

Ltac fields :=
  unfold blk_size, blk_nextfree, blk_prevfree, blk_prev, blk_next,
    set_size, set_nextfree, set_prevfree, set_prev, set_next,
    hdr_head, hdr_tail, hdr_free, set_head, set_tail, set_free in *.

Lemma separated_app_apart (l1 l2 : list Z) :
  separated (l1 ++ l2) ->
  forall b c, In b l1 -> In c l2 -> blocks_apart b c.
Proof.
  induction l1 as [|x l1 IH]; intros H b c Hb Hc; [contradiction|].
  cbn [app separated] in H. destruct H as (_ & Hx & Hs).
  destruct Hb as [<- | Hb].
  - apply Hx. apply in_or_app. right. exact Hc.
  - exact (IH Hs b c Hb Hc).
Qed.

Lemma separated_app_l (l1 l2 : list Z) : separated (l1 ++ l2) -> separated l1.
Proof.
  induction l1 as [|x l1 IH]; intro H; [exact I|].
  cbn [app separated] in *. destruct H as (Hok & Hx & Hs).
  split; [exact Hok|]. split; [|exact (IH Hs)].
  intros c Hc. apply Hx. apply in_or_app. left. exact Hc.
Qed.

Lemma separated_app_r (l1 l2 : list Z) : separated (l1 ++ l2) -> separated l2.
Proof.
  induction l1 as [|x l1 IH]; intro H; [exact H|].
  cbn [app separated] in H. destruct H as (_ & _ & Hs). exact (IH Hs).
Qed.

Lemma separated_ok (l : list Z) :
  separated l -> forall b, In b l -> block_ok b.
Proof.
  induction l as [|x l IH]; intros H b Hb; [contradiction|].
  cbn [separated] in H. destruct H as (Hok & _ & Hs).
  destruct Hb as [<- | Hb]; [exact Hok | exact (IH Hs b Hb)].
Qed.

Lemma blocks_apart_sym (b c : Z) : blocks_apart b c -> blocks_apart c b.
Proof. unfold blocks_apart. lia. Qed.

(** ** Free lists with back links *)

Lemma dchain_frame (m m' : memory) (l : list Z) :
  forall p it,
    dchain m p it l ->
    (forall b, In b l ->
               blk_prevfree m' b = blk_prevfree m b
               /\ blk_nextfree m' b = blk_nextfree m b) ->
    dchain m' p it l.
Proof.
  induction l as [|x l IH]; intros p it H Hsame; inversion H; subst.
  - constructor.
  - destruct (Hsame x (or_introl eq_refl)) as [Hp Hn].
    constructor; [assumption | exact Hp |].
    rewrite Hn. apply IH; [assumption|].
    intros b Hb. apply Hsame. right. exact Hb.
Qed.

Lemma dchain_chain (m : memory) (l : list Z) :
  forall p it, dchain m p it l -> chain m 4 it l.
Proof.
  induction l as [|x l IH]; intros p it H; inversion H; subst.
  - constructor.
  - constructor; [assumption|]. apply (IH x). assumption.
Qed.

Lemma dchain_head (m : memory) (p it : Z) (l : list Z) :
  dchain m p it l -> it = hd NULL l.
Proof. intro H. inversion H; reflexivity. Qed.

(** ** Flag bits, arithmetically *)

Lemma flag_bit (y : Z) : Z.land y 1 = y mod 2.
Proof. change 1 with (Z.ones 1) at 1. rewrite Z.land_ones by lia. reflexivity. Qed.

Lemma set_flag_bit (y : Z) : Z.lor y 1 = y + 1 - y mod 2.
Proof. pose proof (Z.add_lor_land y 1) as H. rewrite flag_bit in H. lia. Qed.

Lemma clear_flag_bit (y : Z) :
  0 <= y < 2 ^ 32 -> Z.land y 0xFFFFFFFE = y - y mod 2.
Proof.
  intro Hy.
  assert (E : Z.land y (Z.ones 32) = y)
    by (rewrite Z.land_ones by lia; apply Z.mod_small; exact Hy).
  change (Z.ones 32) with (Z.lor 0xFFFFFFFE 1) in E.
  rewrite Z.land_lor_distr_r in E.
  pose proof (Z.add_lor_land (Z.land y 0xFFFFFFFE) (Z.land y 1)) as H.
  assert (D : Z.land (Z.land y 0xFFFFFFFE) (Z.land y 1) = 0).
  { rewrite (Z.land_comm y 1), Z.land_assoc, <- (Z.land_assoc y).
    change (Z.land 0xFFFFFFFE 1) with 0.
    rewrite Z.land_0_r. reflexivity. }
  rewrite D, E, flag_bit in H. lia.
Qed.

Lemma wrap32_load32 (m : memory) (a : Z) : wrap32 (load32 m a) = load32 m a.
Proof. apply wrap32_small, load32_range. Qed.

Lemma block_ok_nonnull (b : Z) : block_ok b -> b <> NULL.
Proof. unfold block_ok, NULL. lia. Qed.

Lemma header_ok_nonnull (h : Z) : header_ok h -> h <> NULL.
Proof. unfold header_ok, NULL. lia. Qed.

Lemma dchain_cons_inv (m : memory) (p it x : Z) (l : list Z) :
  dchain m p it (x :: l) ->
  it = x /\ x <> NULL /\ blk_prevfree m x = p
  /\ dchain m x (blk_nextfree m x) l.
Proof. intro H. inversion H; subst. repeat split; assumption. Qed.

Lemma dchain_nil_inv (m : memory) (p it : Z) : dchain m p it [] -> it = NULL.
Proof. intro H. inversion H. reflexivity. Qed.

Lemma add_to_freelist_spec (m : memory) (header block : Z) (l : list Z) :
  header_ok header ->
  separated (block :: l) ->
  (forall b, In b (block :: l) -> header_apart header b) ->
  dchain m NULL (hdr_free m header) l ->
  exists m',
    __blkmngr_add_to_freelist m header block = Ok m'
    /\ dchain m' NULL (hdr_free m' header) (block :: l)
    /\ (forall a,
          word_ok a ->
          words_apart a (block + 4) -> words_apart a (block + 8) ->
          words_apart a (header + 8) ->
          (l = [] \/ words_apart a (hd NULL l + 8)) ->
          load32 m' a = load32 m a).
Proof.
  intros Hh Hsep Hha Hd.
  cbn [separated] in Hsep. destruct Hsep as (Hb & Hbl & Hsl).
  pose proof (Hha block (or_introl eq_refl)) as Hhb.
  unfold __blkmngr_add_to_freelist.
  rewrite (truthy_true header (header_ok_nonnull _ Hh)).
  rewrite (truthy_true block (block_ok_nonnull _ Hb)).
  cbn [assert bind]. eexists. split; [reflexivity|].
  destruct l as [|h l'].
  - pose proof (dchain_head _ _ _ _ Hd) as Ef. cbn [hd] in Ef. rewrite Ef.
    change (truthy NULL) with false. cbv iota.
    assert (F2 : hdr_free (set_prevfree m block NULL) header = NULL).
    { fields. rewrite load32_store32_other by layout. congruence. }
    rewrite F2. split.
    + fields.
      rewrite load32_store32_value by layout.
      constructor; [apply block_ok_nonnull; exact Hb | |]; fields.
      * rewrite !load32_store32_other by layout.
        apply load32_store32_value. layout.
      * rewrite load32_store32_other by layout.
        rewrite load32_store32_value by layout. constructor.
    + intros a Ha A4 A8 Ah _. fields.
      rewrite !load32_store32_other by layout. reflexivity.
  - destruct (dchain_cons_inv _ _ _ _ _ Hd) as (Ef & Hnn & Hprev & Hrest).
    rewrite Ef.
    rewrite (truthy_true h Hnn).
    cbn [separated] in Hsl. destruct Hsl as (Hhok & Hhl & Hsl').
    pose proof (Hbl h (or_introl eq_refl)) as Hbh.
    pose proof (Hha h (or_intror (or_introl eq_refl))) as Hhh.
    assert (F2 : hdr_free (set_prevfree (set_prevfree m h block) block NULL)
                   header = h).
    { fields. rewrite !load32_store32_other by layout. congruence. }
    rewrite F2. split.
    + fields.
      rewrite load32_store32_value by layout.
      constructor; [apply block_ok_nonnull; exact Hb | |]; fields.
      * rewrite !load32_store32_other by layout.
        apply load32_store32_value. layout.
      * rewrite load32_store32_other by layout.
        rewrite load32_store32_value by layout.
        constructor; [exact Hnn | |]; fields.
        -- rewrite !load32_store32_other by layout.
           apply load32_store32_value. layout.
        -- rewrite !load32_store32_other by layout.
           apply (dchain_frame m); [exact Hrest|].
           intros b Hb'.
           pose proof (Hhl b Hb') as Ahb.
           pose proof (Hbl b (or_intror Hb')) as Abb.
           pose proof (Hha b (or_intror (or_intror Hb'))) as Ahd.
           pose proof (separated_ok _ Hsl' b Hb') as Hbok.
           fields.
           rewrite !load32_store32_other by layout. split; reflexivity.
    + intros a Ha A4 A8 Ah [E | Ahd]; [discriminate|]. cbn [hd] in Ahd.
      fields. rewrite !load32_store32_other by layout. reflexivity.
Qed.

Ltac mem_simp :=
  fields;
  repeat first [ rewrite load32_store32_other by layout
               | rewrite load32_store32_same ];
  rewrite ?wrap32_load32, ?wrap32_idem;
  repeat match goal with
         | |- context [wrap32 ?x] => rewrite (wrap32_small x) by layout
         end.

Lemma separated_split (l1 l2 : list Z) (x : Z) :
  separated (l1 ++ x :: l2) ->
  block_ok x
  /\ (forall c, In c l1 -> blocks_apart c x)
  /\ (forall c, In c l2 -> blocks_apart x c).
Proof.
  intro H. pose proof (separated_app_r _ _ H) as Hr.
  cbn [separated] in Hr. destruct Hr as (Hok & Hx & _).
  split; [exact Hok|]. split; [|exact Hx].
  intros c Hc. apply (separated_app_apart _ _ H c x Hc). left. reflexivity.
Qed.

(** The links around a node in the middle of a free list. *)
Lemma dchain_middle (m : memory) (p block : Z) (l2 : list Z) :
  forall l0 q it,
    dchain m q it (l0 ++ p :: block :: l2) ->
    p <> NULL /\ blk_nextfree m p = block /\ blk_prevfree m block = p
    /\ dchain m block (blk_nextfree m block) l2.
Proof.
  induction l0 as [|x l0 IH]; intros q it H; cbn [app] in H.
  - destruct (dchain_cons_inv _ _ _ _ _ H) as (_ & Hp & _ & H').
    pose proof (dchain_cons_inv _ _ _ _ _ H') as (E & _ & Hprev & Hrest).
    repeat split; assumption.
  - destruct (dchain_cons_inv _ _ _ _ _ H) as (_ & _ & _ & H').
    exact (IH _ _ H').
Qed.

(** Relinking the predecessor past a node. *)
Lemma dchain_bypass (m m' : memory) (p block : Z) (l2 : list Z) :
  forall l0 q it,
    dchain m q it (l0 ++ p :: block :: l2) ->
    (forall b, In b (l0 ++ [p]) -> blk_prevfree m' b = blk_prevfree m b) ->
    (forall b, In b l0 -> blk_nextfree m' b = blk_nextfree m b) ->
    dchain m' p (blk_nextfree m' p) l2 ->
    dchain m' q it (l0 ++ p :: l2).
Proof.
  induction l0 as [|x l0 IH]; intros q it H Hprev Hnext Htail; cbn [app] in *.
  - destruct (dchain_cons_inv _ _ _ _ _ H) as (-> & Hp & Hq & _).
    constructor; [exact Hp | | exact Htail].
    rewrite Hprev by (left; reflexivity). exact Hq.
  - destruct (dchain_cons_inv _ _ _ _ _ H) as (-> & Hx & Hq & H').
    constructor; [exact Hx | |].
    + rewrite Hprev by (left; reflexivity). exact Hq.
    + rewrite Hnext by (left; reflexivity).
      apply IH; [exact H' | | | exact Htail].
      * intros b Hb. apply Hprev. right. exact Hb.
      * intros b Hb. apply Hnext. right. exact Hb.
Qed.

(** The part of a free list that follows a removed node. *)
Lemma dchain_after (m m' : memory) (P block : Z) (l2 : list Z) :
  dchain m block (blk_nextfree m block) l2 ->
  (forall n l2', l2 = n :: l2' ->
     blk_prevfree m' n = P /\ blk_nextfree m' n = blk_nextfree m n
     /\ forall b, In b l2' ->
                  blk_prevfree m' b = blk_prevfree m b
                  /\ blk_nextfree m' b = blk_nextfree m b) ->
  dchain m' P (blk_nextfree m block) l2.
Proof.
  intros H Hl2. destruct l2 as [|n l2'].
  - rewrite (dchain_nil_inv _ _ _ H). constructor.
  - destruct (dchain_cons_inv _ _ _ _ _ H) as (E & Hn & _ & Hrest).
    destruct (Hl2 n l2' eq_refl) as (Hp & Hnx & Hsame).
    rewrite E. constructor; [exact Hn | exact Hp |].
    rewrite Hnx. exact (dchain_frame m m' l2' _ _ Hrest Hsame).
Qed.

Lemma remove_from_freelist_spec (m : memory) (header block : Z)
  (l1 l2 : list Z) :
  header_ok header ->
  separated (l1 ++ block :: l2) ->
  (forall b, In b (l1 ++ block :: l2) -> header_apart header b) ->
  dchain m NULL (hdr_free m header) (l1 ++ block :: l2) ->
  exists m',
    __blkmngr_remove_from_freelist m header block = Ok m'
    /\ dchain m' NULL (hdr_free m' header) (l1 ++ l2)
    /\ blk_prevfree m' block = NULL
    /\ blk_nextfree m' block = NULL
    /\ (forall a,
          word_ok a ->
          (forall b, In b (l1 ++ block :: l2) ->
                     words_apart a (b + 4) /\ words_apart a (b + 8)) ->
          words_apart a (header + 8) ->
          load32 m' a = load32 m a).
Proof.
  intros Hh Hsep Hha Hd.
  destruct (separated_split _ _ _ Hsep) as (Hb & Hl1b & Hbl2).
  assert (Hhb : header_apart header block)
    by (apply Hha, in_or_app; right; left; reflexivity).
  unfold __blkmngr_remove_from_freelist.
  rewrite (truthy_true header (header_ok_nonnull _ Hh)).
  rewrite (truthy_true block (block_ok_nonnull _ Hb)).
  cbn [assert bind]. eexists. split; [reflexivity|].
  destruct l1 as [|x l1'] using rev_ind.
  - (* the block is the head of the free list *)
    clear Hl1b. cbn [app] in *.
    destruct (dchain_cons_inv _ _ _ _ _ Hd) as (Ef & _ & HP & Hrest).
    rewrite Ef, Z.eqb_refl.
    assert (E1 : blk_nextfree (set_free m header (blk_nextfree m block)) block
                 = blk_nextfree m block) by (mem_simp; reflexivity).
    assert (E2 : blk_prevfree (set_free m header (blk_nextfree m block)) block
                 = NULL) by (mem_simp; exact HP).
    rewrite E1, E2. clear E1 E2.
    destruct l2 as [|n l2'].
    + rewrite (dchain_nil_inv _ _ _ Hrest) in *.
      change (truthy NULL) with false. cbv iota.
      split; [|split; [|split]].
      * replace (hdr_free _ header) with NULL by (mem_simp; reflexivity).
        constructor.
      * mem_simp. reflexivity.
      * mem_simp. reflexivity.
      * intros a Ha Hap Hah.
        destruct (Hap block (or_introl eq_refl)) as [A4 A8].
        mem_simp. reflexivity.
    + destruct (dchain_cons_inv _ _ _ _ _ Hrest) as (En & Hn & Hpn & Hrest').
      rewrite En in *. rewrite (truthy_true n Hn).
      pose proof (Hbl2 n (or_introl eq_refl)) as Abn.
      assert (Hsep2 : separated (n :: l2'))
        by (apply (separated_app_r [block]); exact Hsep).
      cbn [separated] in Hsep2. destruct Hsep2 as (Hnok & Hnl2 & Hsl2).
      pose proof (Hha n (or_intror (or_introl eq_refl))) as Hhn.
      split; [|split; [|split]].
      * replace (hdr_free _ header) with n by (mem_simp; reflexivity).
        constructor; [exact Hn | mem_simp; reflexivity |].
        replace (blk_nextfree _ n) with (blk_nextfree m n)
          by (mem_simp; reflexivity).
        apply (dchain_frame m); [exact Hrest'|].
        intros b Hb'.
        pose proof (Hnl2 b Hb') as Anb.
        pose proof (Hbl2 b (or_intror Hb')) as Abb.
        pose proof (Hha b (or_intror (or_intror Hb'))) as Ahb.
        pose proof (separated_ok _ Hsl2 b Hb') as Hbok.
        mem_simp. split; reflexivity.
      * mem_simp. reflexivity.
      * mem_simp. reflexivity.
      * intros a Ha Hap Hah.
        destruct (Hap block (or_introl eq_refl)) as [A4 A8].
        destruct (Hap n (or_intror (or_introl eq_refl))) as [B4 B8].
        mem_simp. reflexivity.
  - (* the block has a predecessor [x] *)
    clear IHl1'. rename x into p. rename l1' into l0.
    rewrite <- app_assoc in *. cbn [app] in *.
    destruct (dchain_middle _ _ _ _ _ _ _ Hd) as (Hp & Hpn & HP & Hrest).
    destruct (separated_split _ _ _ Hsep) as (Hpok & Hl0p & Hpr).
    pose proof (Hpr block (or_introl eq_refl)) as Apb.
    assert (Hhp : header_apart header p)
      by (apply Hha, in_or_app; right; left; reflexivity).
    assert (Hne : (block =? hdr_free m header) = false).
    { apply Z.eqb_neq. intro E.
      pose proof (dchain_head _ _ _ _ Hd) as Eh. rewrite <- E in Eh.
      destruct l0 as [|y l0']; cbn [app hd] in Eh.
      - subst p. layout.
      - assert (Ayb : blocks_apart y block).
        { apply Hl1b. apply in_or_app. left. left. reflexivity. }
        subst y. layout. }
    rewrite Hne, HP, (truthy_true p Hp).
    assert (E1 : blk_nextfree (set_nextfree m p (blk_nextfree m block)) block
                 = blk_nextfree m block) by (mem_simp; reflexivity).
    assert (E2 : blk_prevfree (set_nextfree m p (blk_nextfree m block)) block
                 = p) by (mem_simp; exact HP).
    rewrite E1, E2. clear E1 E2.
    assert (Hl0 : forall b, In b l0 ->
                    block_ok b /\ blocks_apart b p /\ blocks_apart b block
                    /\ header_apart header b).
    { intros b Hb'. split; [|split; [|split]].
      - apply (separated_ok _ Hsep). apply in_or_app. left. exact Hb'.
      - apply Hl0p. exact Hb'.
      - apply Hl1b. apply in_or_app. left. exact Hb'.
      - apply Hha. apply in_or_app. left. exact Hb'. }
    destruct l2 as [|n l2'].
    + rewrite (dchain_nil_inv _ _ _ Hrest) in *.
      change (truthy NULL) with false. cbv iota.
      split; [|split; [|split]].
      * replace (hdr_free _ header) with (hdr_free m header)
          by (mem_simp; reflexivity).
        apply (dchain_bypass m _ p block []); [exact Hd | | |].
        -- intros b Hb'. apply in_app_or in Hb'.
           destruct Hb' as [Hb' | [<- | []]].
           ++ destruct (Hl0 b Hb') as (? & ? & ? & ?). mem_simp. reflexivity.
           ++ mem_simp. reflexivity.
        -- intros b Hb'.
           destruct (Hl0 b Hb') as (? & ? & ? & ?). mem_simp. reflexivity.
        -- replace (blk_nextfree _ p) with NULL by (mem_simp; reflexivity).
           constructor.
      * mem_simp. reflexivity.
      * mem_simp. reflexivity.
      * intros a Ha Hap Hah.
        destruct (Hap block) as [A4 A8];
          [apply in_or_app; right; left; reflexivity|].
        destruct (Hap p) as [B4 B8];
          [apply in_or_app; left; apply in_or_app; right; left; reflexivity|].
        mem_simp. reflexivity.
    + destruct (dchain_cons_inv _ _ _ _ _ Hrest) as (En & Hn & Hpn' & Hrest').
      rewrite En in *. rewrite (truthy_true n Hn).
      pose proof (Hbl2 n (or_introl eq_refl)) as Abn.
      pose proof (Hpr n (or_intror (or_introl eq_refl))) as Apn.
      assert (Hsep2 : separated (n :: l2')).
      { apply (separated_app_r (l0 ++ [p; block])).
        rewrite <- app_assoc. exact Hsep. }
      cbn [separated] in Hsep2. destruct Hsep2 as (Hnok & Hnl2 & Hsl2).
      assert (Hhn : header_apart header n).
      { apply Hha, in_or_app. right. right. right. left. reflexivity. }
      assert (Hl0n : forall b, In b l0 -> blocks_apart b n).
      { intros b Hb'.
        apply (separated_app_apart l0 (p :: block :: n :: l2') Hsep b n Hb').
        right. right. left. reflexivity. }
      split; [|split; [|split]].
      * replace (hdr_free _ header) with (hdr_free m header)
          by (mem_simp; reflexivity).
        apply (dchain_bypass m _ p block (n :: l2')); [exact Hd | | |].
        -- intros b Hb'. apply in_app_or in Hb'.
           destruct Hb' as [Hb' | [<- | []]].
           ++ destruct (Hl0 b Hb') as (? & ? & ? & ?).
              pose proof (Hl0n b Hb'). mem_simp. reflexivity.
           ++ mem_simp. reflexivity.
        -- intros b Hb'.
           destruct (Hl0 b Hb') as (? & ? & ? & ?).
           pose proof (Hl0n b Hb'). mem_simp. reflexivity.
        -- replace (blk_nextfree _ p) with n by (mem_simp; reflexivity).
           constructor; [exact Hn | mem_simp; reflexivity |].
           replace (blk_nextfree _ n) with (blk_nextfree m n)
             by (mem_simp; reflexivity).
           apply (dchain_frame m); [exact Hrest'|].
           intros b Hb'.
           pose proof (Hnl2 b Hb') as Anb.
           pose proof (Hbl2 b (or_intror Hb')) as Abb.
           pose proof (Hpr b (or_intror (or_intror Hb'))) as Apb'.
           assert (Ahb : header_apart header b).
           { apply Hha, in_or_app. right. right. right. right. exact Hb'. }
           pose proof (separated_ok _ Hsl2 b Hb') as Hbok.
           mem_simp. split; reflexivity.
      * mem_simp. reflexivity.
      * mem_simp. reflexivity.
      * intros a Ha Hap Hah.
        destruct (Hap block) as [A4 A8];
          [apply in_or_app; right; left; reflexivity|].
        destruct (Hap p) as [B4 B8];
          [apply in_or_app; left; apply in_or_app; right; left; reflexivity|].
        destruct (Hap n) as [C4 C8];
          [apply in_or_app; right; right; left; reflexivity|].
        mem_simp. reflexivity.
Qed.

(** ** Split *)

Lemma split_block_spec (m : memory) (header block size : Z) :
  header_ok header ->
  block_ok block ->
  header_apart header block ->
  0 <= size ->
  block + OVERHEAD + size + sizeof_block_t <= 2 ^ 32 ->
  header_apart header (block + OVERHEAD + size) ->
  is_free m block = true ->
  exists m',
    __blkmngr_split_block m header block size = Ok m'
    /\ blk_next m' block = block + OVERHEAD + size
    /\ blk_nextfree m' block = block + OVERHEAD + size
    /\ blk_prev m' block = blk_prev m block
    /\ blk_prevfree m' block = blk_prevfree m block
    /\ blk_size m' block = BLOCK_REAL_SIZE size
    /\ blk_prev m' (block + OVERHEAD + size) = block
    /\ blk_prevfree m' (block + OVERHEAD + size) = block
    /\ blk_next m' (block + OVERHEAD + size) = blk_next m block
    /\ blk_nextfree m' (block + OVERHEAD + size) = blk_nextfree m block
    /\ blk_size m' (block + OVERHEAD + size)
       = Z.lor (wrap32 (real_size m block - OVERHEAD - size)) 1
    /\ hdr_tail m' header
       = (if hdr_tail m header =? block then block + OVERHEAD + size
          else hdr_tail m header)
    /\ hdr_head m' header = hdr_head m header
    /\ hdr_free m' header = hdr_free m header
    /\ (forall a,
          word_ok a ->
          a + 4 <= block \/ block + sizeof_block_t <= a ->
          a + 4 <= block + OVERHEAD + size
          \/ block + OVERHEAD + size + sizeof_block_t <= a ->
          words_apart a (header + 4) ->
          load32 m' a = load32 m a).
Proof.
  intros Hh Hb Hhb Hsz Hs Hhs Hfree.
  unfold __blkmngr_split_block.
  rewrite (truthy_true block (block_ok_nonnull _ Hb)).
  unfold is_free in Hfree. rewrite Hfree. cbn [assert bind].
  rewrite (wrap32_small (block + OVERHEAD + size)) by layout.
  set (s := block + OVERHEAD + size) in *.
  assert (Hsok : block_ok s) by (subst s; layout).
  assert (Hbs : blocks_apart block s) by (subst s; layout).
  assert (Hlor : forall x, wrap32 (Z.lor (wrap32 x) 1) = Z.lor (wrap32 x) 1).
  { intro x. apply wrap32_small. rewrite set_flag_bit.
    pose proof (wrap32_range x) as R. change (2 ^ 32) with 4294967296 in *.
    pose proof (Z.mod_pos_bound (wrap32 x) 2).
    assert (wrap32 x = 4294967295 -> wrap32 x mod 2 = 1)
      by (intros ->; reflexivity).
    lia. }
  assert (Hreal : forall x, 0 <= BLOCK_REAL_SIZE x < 2 ^ 32).
  { intro x. unfold BLOCK_REAL_SIZE.
    change 0xFFFFFFFE with (Z.land 0xFFFFFFFE (Z.ones 32)).
    rewrite Z.land_assoc, Z.land_ones by lia.
    apply Z.mod_pos_bound. reflexivity. }
  eexists. split; [reflexivity|].
  assert (Etail : forall M, hdr_tail (BLOCK_SET_FREE (set_size (set_size
             (set_nextfree (set_next (set_nextfree (set_next (set_prevfree
             (set_prev m s block) s block) s
             (blk_next (set_prevfree (set_prev m s block) s block) block)) s
             M) block s) block s) s
             (wrap32 (BLOCK_REAL_SIZE (blk_size (set_nextfree (set_next
             (set_nextfree (set_next (set_prevfree (set_prev m s block) s
             block) s (blk_next (set_prevfree (set_prev m s block) s block)
             block)) s M) block s) block s) block) - OVERHEAD - size)))
             block (BLOCK_REAL_SIZE size)) s) header = hdr_tail m header).
  { intro M. unfold BLOCK_SET_FREE. mem_simp. reflexivity. }
  rewrite Etail. clear Etail.
  unfold BLOCK_SET_FREE, real_size.
  destruct (hdr_tail m header =? block) eqn:Et.
  - mem_simp. rewrite ?Hlor, ?(wrap32_small _ (Hreal _)).
    repeat split; try reflexivity.
    intros a Ha A1 A2 A3. mem_simp. reflexivity.
  - mem_simp. rewrite ?Hlor, ?(wrap32_small _ (Hreal _)).
    repeat split; try reflexivity.
    intros a Ha A1 A2 A3. mem_simp. reflexivity.
Qed.

Lemma real_size_arith (m : memory) (b : Z) :
  real_size m b = blk_size m b - blk_size m b mod 2.
Proof. unfold real_size, BLOCK_REAL_SIZE. apply clear_flag_bit, load32_range. Qed.

Lemma is_free_arith (m : memory) (b : Z) :
  is_free m b = true <-> blk_size m b mod 2 = 1.
Proof.
  unfold is_free, BLOCK_IS_FREE, truthy. rewrite flag_bit.
  pose proof (Z.mod_pos_bound (blk_size m b) 2).
  rewrite negb_true_iff, Z.eqb_neq. lia.
Qed.

Lemma is_used_arith (m : memory) (b : Z) :
  is_free m b = false <-> blk_size m b mod 2 = 0.
Proof.
  unfold is_free, BLOCK_IS_FREE, truthy. rewrite flag_bit.
  rewrite negb_false_iff, Z.eqb_eq. reflexivity.
Qed.

Lemma real_size_even (m : memory) (b : Z) : real_size m b mod 2 = 0.
Proof.
  rewrite real_size_arith.
  pose proof (Z.div_mod (blk_size m b) 2).
  replace (blk_size m b - blk_size m b mod 2) with (blk_size m b / 2 * 2) by lia.
  apply Z.mod_mul. discriminate.
Qed.

Lemma real_size_range (m : memory) (b : Z) : 0 <= real_size m b < 2 ^ 32.
Proof.
  rewrite real_size_arith. pose proof (load32_range m b) as R.
  unfold blk_size. pose proof (Z.mod_pos_bound (load32 m b) 2).
  pose proof (Z.mod_le (load32 m b) 2). lia.
Qed.

(** X1.  Split of a free block at an even size that leaves room for a
    header: the block keeps exactly that size and is marked used, the
    remainder lies right behind it, is marked free and has the old real size
    less the size and one header, so that sizes and header add up to the old
    real size; the remainder is linked between the block and its old
    successor, and becomes the tail when the block was the tail. *)
Theorem split_with_room_conserves_space (m : memory) (header block size : Z) :
  header_ok header ->
  block_ok block ->
  header_apart header block ->
  0 <= size ->
  Z.even size = true ->
  size + OVERHEAD <= real_size m block ->
  block + OVERHEAD + size + sizeof_block_t <= 2 ^ 32 ->
  header_apart header (block + OVERHEAD + size) ->
  is_free m block = true ->
  exists m',
    __blkmngr_split_block m header block size = Ok m'
    /\ real_size m' block = size
    /\ is_free m' block = false
    /\ real_size m' (block + OVERHEAD + size)
       = real_size m block - OVERHEAD - size
    /\ is_free m' (block + OVERHEAD + size) = true
    /\ real_size m' block + OVERHEAD + real_size m' (block + OVERHEAD + size)
       = real_size m block
    /\ blk_next m' block = block + OVERHEAD + size
    /\ blk_prev m' (block + OVERHEAD + size) = block
    /\ blk_next m' (block + OVERHEAD + size) = blk_next m block
    /\ hdr_tail m' header
       = (if hdr_tail m header =? block then block + OVERHEAD + size
          else hdr_tail m header).
Proof.
  intros Hh Hb Hhb Hsz Hev Hroom Hs Hhs Hfree.
  destruct (split_block_spec m header block size Hh Hb Hhb Hsz Hs Hhs Hfree)
    as (m' & Hrun & Hnext & _ & _ & _ & Hsize & Hsprev & _ & Hsnext & _
        & Hssize & Htail & _).
  exists m'. split; [exact Hrun|].
  pose proof (real_size_range m block) as Rr.
  pose proof (real_size_even m block) as Re.
  set (r := real_size m block) in *.
  assert (Hsize_small : 0 <= size < 2 ^ 32) by (unfold OVERHEAD, sizeof_block_t in *; lia).
  rewrite (BLOCK_REAL_SIZE_even size Hsize_small Hev) in Hsize.
  apply Z.even_spec in Hev. destruct Hev as [k Hk].
  assert (Hv : wrap32 (r - OVERHEAD - size) = r - OVERHEAD - size).
  { apply wrap32_small. unfold OVERHEAD, sizeof_block_t in *. lia. }
  rewrite Hv in Hssize. rewrite set_flag_bit in Hssize.
  assert (Hvm : (r - OVERHEAD - size) mod 2 = 0).
  { unfold OVERHEAD, sizeof_block_t.
    pose proof (Z.div_mod r 2).
    replace (r - 20 - size) with ((r / 2 - 10 - k) * 2) by lia.
    apply Z.mod_mul. discriminate. }
  rewrite Hvm in Hssize.
  assert (Hb1 : real_size m' block = size).
  { rewrite real_size_arith, Hsize.
    replace (size mod 2) with 0; [lia|].
    rewrite Hk, Z.mul_comm. symmetry. apply Z.mod_mul. discriminate. }
  assert (Hs1 : real_size m' (block + OVERHEAD + size) = r - OVERHEAD - size).
  { rewrite real_size_arith, Hssize.
    replace ((r - OVERHEAD - size + 1 - 0) mod 2) with 1; [lia|].
    rewrite Z.sub_0_r, Z.add_mod, Hvm by discriminate. reflexivity. }
  split; [exact Hb1|]. split.
  - apply is_used_arith. rewrite Hsize, Hk, Z.mul_comm.
    apply Z.mod_mul. discriminate.
  - split; [exact Hs1|]. split.
    + apply is_free_arith. rewrite Hssize.
      rewrite Z.sub_0_r, Z.add_mod, Hvm by discriminate. reflexivity.
    + split; [rewrite Hb1, Hs1; lia|].
      repeat split; assumption.
Qed.

(** X2.  When the header of the remainder, which split places at the
    block's address plus one header plus the size, does not overlap the
    header of the block's old successor, split links the remainder in front
    of that successor but writes nothing into it: its prev and prevfree
    links are what they were, so a successor that designated the block still
    does, not the remainder now before it.  (Where the two headers overlap,
    as in the split without room of C4, the theorem says nothing.) *)
Theorem split_leaves_successor_links (m : memory) (header block size next : Z) :
  header_ok header ->
  block_ok block ->
  header_apart header block ->
  0 <= size ->
  block + OVERHEAD + size + sizeof_block_t <= 2 ^ 32 ->
  header_apart header (block + OVERHEAD + size) ->
  is_free m block = true ->
  blk_next m block = next ->
  block_ok next ->
  blocks_apart block next ->
  blocks_apart (block + OVERHEAD + size) next ->
  header_apart header next ->
  exists m',
    __blkmngr_split_block m header block size = Ok m'
    /\ blk_next m' (block + OVERHEAD + size) = next
    /\ blk_prev m' next = blk_prev m next
    /\ blk_prevfree m' next = blk_prevfree m next.
Proof.
  intros Hh Hb Hhb Hsz Hs Hhs Hfree Hnext Hn Hbn Hsn Hhn.
  destruct (split_block_spec m header block size Hh Hb Hhb Hsz Hs Hhs Hfree)
    as (m' & Hrun & _ & _ & _ & _ & _ & _ & _ & Hsnext & _ & _ & _ & _ & _
        & Hframe).
  exists m'. split; [exact Hrun|]. split; [congruence|].
  unfold blk_prev, blk_prevfree. split; apply Hframe; layout.
Qed.

(** ** Merge *)

Lemma merge_blocks_spec (m : memory) (header block1 block2 : Z)
  (l1 l2 : list Z) :
  header_ok header ->
  separated (l1 ++ block2 :: l2) ->
  (forall b, In b (l1 ++ block2 :: l2) -> header_apart header b) ->
  dchain m NULL (hdr_free m header) (l1 ++ block2 :: l2) ->
  block_ok block1 ->
  header_apart header block1 ->
  blocks_apart block1 block2 ->
  (forall b, In b (l1 ++ l2) -> b = block1 \/ blocks_apart block1 b) ->
  is_free m block1 = true ->
  is_free m block2 = true ->
  blk_next m block1 = block2 ->
  exists m',
    __blkmngr_merge_blocks m header block1 block2 = Ok m'
    /\ dchain m' NULL (hdr_free m' header) (l1 ++ l2)
    /\ blk_next m' block1 = blk_next m block2
    /\ blk_prev m' block1 = blk_prev m block1
    /\ blk_size m' block1
       = Z.lor (wrap32 (real_size m block1 + real_size m block2 + OVERHEAD)) 1
    /\ hdr_tail m' header
       = (if hdr_tail m header =? block2 then block1 else hdr_tail m header)
    /\ hdr_head m' header = hdr_head m header
    /\ (forall a,
          word_ok a ->
          (forall b, In b (l1 ++ block2 :: l2) ->
                     words_apart a (b + 4) /\ words_apart a (b + 8)) ->
          words_apart a (header + 8) -> words_apart a (header + 4) ->
          words_apart a block1 -> words_apart a (block1 + 16) ->
          load32 m' a = load32 m a).
Proof.
  intros Hh Hsep Hha Hd Hb1 Hhb1 Hb12 Hl Hf1 Hf2 Hnext.
  destruct (remove_from_freelist_spec m header block2 l1 l2 Hh Hsep Hha Hd)
    as (m1 & Hrun & Hd1 & _ & _ & Hframe).
  destruct (separated_split _ _ _ Hsep) as (Hb2 & Hl1b & Hbl2).
  assert (Hhb2 : header_apart header block2)
    by (apply Hha, in_or_app; right; left; reflexivity).
  assert (HL : forall b, In b (l1 ++ block2 :: l2) ->
                 block_ok b /\ (b = block1 \/ blocks_apart block1 b)
                 /\ (b = block2 \/ blocks_apart block2 b)
                 /\ header_apart header b).
  { intros b Hb. split; [exact (separated_ok _ Hsep b Hb)|].
    apply in_app_or in Hb. destruct Hb as [Hb | [<- | Hb]].
    - split; [apply Hl, in_or_app; left; exact Hb|].
      split; [right; apply blocks_apart_sym, Hl1b; exact Hb|].
      apply Hha, in_or_app. left. exact Hb.
    - split; [right; exact Hb12|]. split; [left; reflexivity | exact Hhb2].
    - split; [apply Hl, in_or_app; right; exact Hb|].
      split; [right; apply Hbl2; exact Hb|].
      apply Hha, in_or_app. right. right. exact Hb. }
  assert (Fr : forall a,
             a = block1 \/ a = block1 + 12 \/ a = block1 + 16 \/ a = block2
             \/ a = block2 + 16 \/ a = header \/ a = header + 4 ->
             load32 m1 a = load32 m a).
  { intros a Ha. apply Hframe.
    - layout.
    - intros b Hb. destruct (HL b Hb) as (Hbok & [-> | A1] & [-> | A2] & Ah);
        layout.
    - layout. }
  unfold __blkmngr_merge_blocks.
  rewrite (truthy_true block1 (block_ok_nonnull _ Hb1)).
  rewrite (truthy_true block2 (block_ok_nonnull _ Hb2)).
  unfold is_free in Hf1, Hf2. rewrite Hf1, Hf2, Hnext, Z.eqb_refl.
  cbn [assert bind]. rewrite Hrun. cbn [bind].
  eexists. split; [reflexivity|].
  assert (Hlor : forall x, wrap32 (Z.lor (wrap32 x) 1) = Z.lor (wrap32 x) 1).
  { intro x. apply wrap32_small. rewrite set_flag_bit.
    pose proof (wrap32_range x) as R. change (2 ^ 32) with 4294967296 in *.
    pose proof (Z.mod_pos_bound (wrap32 x) 2).
    assert (wrap32 x = 4294967295 -> wrap32 x mod 2 = 1)
      by (intros ->; reflexivity).
    lia. }
  unfold BLOCK_SET_FREE, real_size.
  match goal with
  | |- context [if hdr_tail ?M header =? block2 then _ else _] =>
      replace (hdr_tail M header) with (hdr_tail m header)
        by (mem_simp; symmetry; apply Fr; tauto)
  end.
  assert (Hdc : forall m',
            (forall b, In b (l1 ++ l2) ->
                       blk_prevfree m' b = blk_prevfree m1 b
                       /\ blk_nextfree m' b = blk_nextfree m1 b) ->
            hdr_free m' header = hdr_free m1 header ->
            dchain m' NULL (hdr_free m' header) (l1 ++ l2)).
  { intros m' Hsame ->. exact (dchain_frame m1 m' _ _ _ Hd1 Hsame). }
  assert (HL' : forall b, In b (l1 ++ l2) ->
                  block_ok b /\ (b = block1 \/ blocks_apart block1 b)
                  /\ header_apart header b).
  { intros b Hb. destruct (HL b) as (? & ? & _ & ?); [|tauto].
    apply in_app_or in Hb. apply in_or_app.
    destruct Hb; [left | right; right]; assumption. }
  destruct (hdr_tail m header =? block2) eqn:Et.
  - split; [apply Hdc|].
    + intros b Hb. destruct (HL' b Hb) as (Hbok & [-> | A1] & Ah);
        mem_simp; split; reflexivity.
    + mem_simp. reflexivity.
    + mem_simp. rewrite ?Hlor.
      rewrite !Fr by tauto.
      repeat split; try reflexivity.
      intros a Ha Hap A8 A4 A0 A16. mem_simp. apply Hframe; assumption.
  - split; [apply Hdc|].
    + intros b Hb. destruct (HL' b Hb) as (Hbok & [-> | A1] & Ah);
        mem_simp; split; reflexivity.
    + mem_simp. reflexivity.
    + mem_simp. rewrite ?Hlor.
      rewrite !Fr by tauto.
      repeat split; try reflexivity.
      intros a Ha Hap A8 A4 A0 A16. mem_simp. apply Hframe; assumption.
Qed.

(** ** Flags *)

Lemma blk_size_set_free (m : memory) (b : Z) :
  blk_size (BLOCK_SET_FREE m b) b = blk_size m b + 1 - blk_size m b mod 2.
Proof.
  unfold BLOCK_SET_FREE, blk_size, set_size. rewrite load32_store32_same.
  rewrite set_flag_bit. apply wrap32_small.
  pose proof (load32_range m b) as R. change (2 ^ 32) with 4294967296 in *.
  pose proof (Z.mod_pos_bound (load32 m b) 2).
  assert (load32 m b = 4294967295 -> load32 m b mod 2 = 1)
    by (intros ->; reflexivity).
  lia.
Qed.

Lemma blk_size_set_used (m : memory) (b : Z) :
  blk_size (BLOCK_SET_USED m b) b = blk_size m b - blk_size m b mod 2.
Proof.
  unfold BLOCK_SET_USED, blk_size, set_size. rewrite load32_store32_same.
  rewrite (clear_flag_bit _ (load32_range m b)). apply wrap32_small.
  pose proof (load32_range m b) as R.
  pose proof (Z.mod_pos_bound (load32 m b) 2).
  pose proof (Z.mod_le (load32 m b) 2). lia.
Qed.

Lemma mod2_cases (x : Z) : x mod 2 = 0 \/ x mod 2 = 1.
Proof. pose proof (Z.mod_pos_bound x 2). lia. Qed.

Lemma mod2_sub_self (x : Z) : (x - x mod 2) mod 2 = 0.
Proof.
  pose proof (Z.div_mod x 2).
  replace (x - x mod 2) with (x / 2 * 2) by lia.
  apply Z.mod_mul. discriminate.
Qed.

Lemma mod2_set (x : Z) : (x + 1 - x mod 2) mod 2 = 1.
Proof.
  replace (x + 1 - x mod 2) with ((x - x mod 2) + 1) by lia.
  rewrite Z.add_mod, mod2_sub_self by discriminate. reflexivity.
Qed.

Lemma flag_macros_spec :
  forall (m : memory) (block : Z),
    real_size (BLOCK_SET_FREE m block) block = real_size m block
    /\ is_free (BLOCK_SET_FREE m block) block = true
    /\ real_size (BLOCK_SET_USED m block) block = real_size m block
    /\ is_free (BLOCK_SET_USED m block) block = false
    /\ real_size (BLOCK_SET_USED (BLOCK_SET_FREE m block) block) block
       = real_size m block.
Proof.
  intros m block.
  assert (F : real_size (BLOCK_SET_FREE m block) block = real_size m block).
  { rewrite !real_size_arith, blk_size_set_free, mod2_set. lia. }
  assert (U : forall m0, real_size (BLOCK_SET_USED m0 block) block
                         = real_size m0 block).
  { intro m0. rewrite !real_size_arith, blk_size_set_used, mod2_sub_self. lia. }
  split; [exact F|]. split.
  - apply is_free_arith. rewrite blk_size_set_free. apply mod2_set.
  - split; [apply U|]. split.
    + apply is_used_arith. rewrite blk_size_set_used. apply mod2_sub_self.
    + rewrite U. exact F.
Qed.

(** X3.  Marking a block free or used changes the flag of its size field
    and nothing else of it: either macro keeps the real size, the flag reads
    set after [BLOCK_SET_FREE] and clear after [BLOCK_SET_USED], and marking
    free and then used gives back the real size. *)
Theorem flag_macros_keep_real_size :
  forall (m : memory) (block : Z),
    real_size (BLOCK_SET_FREE m block) block = real_size m block
    /\ is_free (BLOCK_SET_FREE m block) block = true
    /\ real_size (BLOCK_SET_USED m block) block = real_size m block
    /\ is_free (BLOCK_SET_USED m block) block = false
    /\ real_size (BLOCK_SET_USED (BLOCK_SET_FREE m block) block) block
       = real_size m block.
Proof. exact flag_macros_spec. Qed.

(** ** Rounding *)

(** X4.  For a 32-bit request of at most 0xFFFFFFF1 the rounded size is a
    multiple of 16, at least the request with its lowest bit cleared and
    less than 16 above that; so a request one above a multiple of 16 is
    rounded down to that multiple, one byte short of the request.  A larger
    request rounds to zero. *)
Theorem rounded_size_bounds :
  forall size : Z,
    0 <= size < 2 ^ 32 ->
    (size <= 0xFFFFFFF1 ->
     __blkmngr_get_rounded_size size mod 16 = 0
     /\ size - size mod 2 <= __blkmngr_get_rounded_size size
        < size - size mod 2 + 16
     /\ (size mod 16 = 1 -> __blkmngr_get_rounded_size size = size - 1))
    /\ (0xFFFFFFF1 < size -> __blkmngr_get_rounded_size size = 0).
Proof.
  intros size Hs. change (2 ^ 32) with 4294967296 in Hs.
  unfold __blkmngr_get_rounded_size, round_up, BLOCK_REAL_SIZE.
  rewrite (clear_flag_bit size) by (change (2 ^ 32) with 4294967296; lia).
  set (e := size - size mod 2).
  pose proof (mod2_cases size) as Hm.
  pose proof (Z.div_mod size 2) as Dsz.
  pose proof (Z.div_mod (e + 16 - 1) 16) as D.
  pose proof (Z.mod_pos_bound (e + 16 - 1) 16) as B.
  set (q := (e + 16 - 1) / 16) in *.
  split.
  - intro Hle.
    assert (Hq : wrap32 (q * 16) = q * 16).
    { apply wrap32_small. change (2 ^ 32) with 4294967296. subst e. lia. }
    rewrite Hq. split; [apply Z.mod_mul; discriminate|].
    split; [lia|].
    intro H1.
    pose proof (Z.div_mod size 16) as Ds. pose proof (Z.div_mod size 2) as D2.
    assert (size mod 2 = 1).
    { replace size with (1 + size / 16 * 8 * 2) by lia.
      rewrite Z.mod_add by discriminate. reflexivity. }
    subst e. lia.
  - intro Hgt.
    assert (Hq : q * 16 = 4294967296) by (subst e; lia).
    rewrite Hq. reflexivity.
Qed.

Lemma rounded_size_bounds_witness :
  __blkmngr_get_rounded_size 17 = 16
  /\ __blkmngr_get_rounded_size 0xFFFFFFF2 = 0.
Proof.
  destruct (rounded_size_bounds 17) as [Hlow _]; [vm_compute; split; congruence|].
  destruct (rounded_size_bounds 0xFFFFFFF2) as [_ Hhigh];
    [vm_compute; split; congruence|].
  split.
  - destruct Hlow as (_ & _ & H17); [vm_compute; congruence|].
    apply H17. reflexivity.
  - apply Hhigh. reflexivity.
Defined.

(** ** Heap growth *)

Lemma wrap32_sub_add (b i : Z) : wrap32 (wrap32 (b + i) - i) = wrap32 b.
Proof.
  unfold wrap32. rewrite Zminus_mod_idemp_l. f_equal. lia.
Qed.

(** X5.  Heap growth fails exactly when the new top, computed modulo 2^32,
    lies past the end of the area: it then answers null and leaves the
    descriptor as it was.  Otherwise it answers the old top, the top has
    moved by the increment and is not past the end of the area, and the
    rest of the descriptor is as it was. *)
Theorem do_brk_returns_old_top :
  forall (d : mm_struct_t) (heap : vm_area_struct_t) (increment : Z),
    (wrap32 (brk d + increment) > vm_end heap
     /\ __do_brk d heap increment = (d, NULL))
    \/ (wrap32 (brk d + increment) <= vm_end heap
        /\ exists d',
             __do_brk d heap increment = (d', wrap32 (brk d))
             /\ brk d' = wrap32 (brk d + increment)
             /\ brk d' <= vm_end heap
             /\ start_brk d' = start_brk d
             /\ mmap_list d' = mmap_list d).
Proof.
  intros d heap increment. unfold __do_brk. cbv zeta.
  destruct (wrap32 (brk d + increment) >? vm_end heap) eqn:E.
  - left. apply Z.gtb_gt in E. split; [exact E | reflexivity].
  - right. assert (Hle : wrap32 (brk d + increment) <= vm_end heap).
    { destruct (Z.gtb_spec (wrap32 (brk d + increment)) (vm_end heap));
        [discriminate | assumption]. }
    split; [exact Hle|]. eexists. cbn [brk]. rewrite wrap32_sub_add.
    split; [reflexivity|]. cbn. repeat split. exact Hle.
Qed.

(** X6.  Two growths that both succeed hand out adjoining ranges: the
    second answers the address where the first range ends, and the top ends
    where the second range ends. *)
Theorem do_brk_twice_contiguous :
  forall (d d1 d2 : mm_struct_t) (heap : vm_area_struct_t) (i1 i2 p1 p2 : Z),
    wrap32 (brk d + i1) <= vm_end heap ->
    __do_brk d heap i1 = (d1, p1) ->
    wrap32 (brk d1 + i2) <= vm_end heap ->
    __do_brk d1 heap i2 = (d2, p2) ->
    p2 = wrap32 (p1 + i1) /\ brk d2 = wrap32 (p2 + i2).
Proof.
  intros d d1 d2 heap i1 i2 p1 p2 H1 E1 H2 E2.
  unfold __do_brk in E1, E2. cbv zeta in E1, E2.
  assert (G1 : (wrap32 (brk d + i1) >? vm_end heap) = false)
    by (rewrite Z.gtb_ltb; apply Z.ltb_ge; exact H1).
  assert (G2 : (wrap32 (brk d1 + i2) >? vm_end heap) = false)
    by (rewrite Z.gtb_ltb; apply Z.ltb_ge; exact H2).
  rewrite G1 in E1. rewrite G2 in E2.
  injection E1 as <- <-. injection E2 as <- <-. cbn [brk].
  rewrite !wrap32_sub_add. unfold wrap32.
  rewrite !Z.mod_mod, !Zplus_mod_idemp_l by discriminate. split; reflexivity.
Qed.

(** ** Layout checks *)

Lemma dnodes_dchain (m : memory) (l : list Z) :
  forall p it, dnodes m p it l = true -> dchain m p it l.
Proof.
  induction l as [|x l IH]; intros p it H; cbn [dnodes] in H.
  - apply Z.eqb_eq in H. subst it. constructor.
  - apply andb_prop in H. destruct H as [H Hrest].
    apply andb_prop in H. destruct H as [H Hp].
    apply andb_prop in H. destruct H as [Hit Hx].
    apply Z.eqb_eq in Hit, Hp. apply negb_true_iff, Z.eqb_neq in Hx.
    subst it. constructor; [exact Hx | exact Hp | apply IH; exact Hrest].
Qed.

Lemma separatedb_separated (l : list Z) :
  separatedb l = true -> separated l.
Proof.
  induction l as [|b l IH]; intro H; cbn [separatedb separated] in *.
  - exact I.
  - apply andb_prop in H. destruct H as [H Hrest].
    apply andb_prop in H. destruct H as [H Hall].
    apply andb_prop in H. destruct H as [Hlo Hhi].
    apply Z.ltb_lt in Hlo. apply Z.leb_le in Hhi.
    split; [split; assumption|]. split; [|apply IH; exact Hrest].
    intros c Hc. rewrite forallb_forall in Hall. specialize (Hall c Hc).
    apply orb_prop in Hall. unfold blocks_apart.
    destruct Hall as [Hl | Hr]; [left | right]; apply Z.leb_le; assumption.
Qed.

Lemma header_apartb_apart (h : Z) (l : list Z) :
  header_apartb h l = true -> forall b, In b l -> header_apart h b.
Proof.
  unfold header_apartb. rewrite forallb_forall. intros H b Hb.
  specialize (H b Hb). apply orb_prop in H. unfold header_apart.
  destruct H as [Hl | Hr]; [left | right]; apply Z.leb_le; assumption.
Qed.

(** ** The dump *)

Lemma walk_chain (m : memory) (link : Z) (l : list Z) :
  forall (fuel : nat) (it : Z),
    chain m link it l -> (List.length l <= fuel)%nat ->
    walk fuel m link it = Ok tt.
Proof.
  induction l as [|x l IH]; intros fuel it H Hf; inversion H; subst.
  - apply walk_null.
  - destruct fuel as [|fuel]; [simpl in Hf; lia|].
    cbn [walk]. match goal with Hx : x <> NULL |- _ =>
      apply Z.eqb_neq in Hx; rewrite Hx end.
    apply IH; [assumption | simpl in Hf; lia].
Qed.

Lemma walk_loop (m : memory) (link it : Z) :
  it <> NULL -> load32 m (it + link) = it ->
  forall fuel, walk fuel m link it = OutOfFuel.
Proof.
  intros Hit Hloop fuel. apply Z.eqb_neq in Hit.
  induction fuel as [|fuel IH]; cbn [walk]; rewrite Hit; [reflexivity|].
  rewrite Hloop. exact IH.
Qed.

Lemma walk_never_asserts (fuel : nat) (m : memory) (link : Z) :
  forall it msg, walk fuel m link it <> AssertFail msg.
Proof.
  induction fuel as [|fuel IH]; intros it msg; cbn [walk];
    destruct (it =? NULL); try discriminate. apply IH.
Qed.

Lemma nodes_loop (m : memory) (link it : Z) :
  it <> NULL -> load32 m (it + link) = it ->
  forall fuel, nodes fuel m link it = None.
Proof.
  intros Hit Hloop fuel. apply Z.eqb_neq in Hit.
  induction fuel as [|fuel IH]; cbn [nodes]; rewrite Hit; [reflexivity|].
  rewrite Hloop, IH. reflexivity.
Qed.

Lemma dump_chains (fuel : nat) (m : memory) (header : Z) (lb lf : list Z) :
  header <> NULL ->
  chain m 16 (hdr_head m header) lb ->
  chain m 4 (hdr_free m header) lf ->
  (List.length lb <= fuel)%nat ->
  (List.length lf <= fuel)%nat ->
  __blkmngr_dump fuel m header = Ok tt.
Proof.
  intros Hh Hb Hf Lb Lf. unfold __blkmngr_dump.
  rewrite (truthy_true header Hh). cbn [assert bind].
  rewrite (walk_chain m 16 lb fuel _ Hb Lb), (walk_chain m 4 lf fuel _ Hf Lf).
  destruct (truthy (hdr_head m header)), (truthy (hdr_free m header));
    reflexivity.
Qed.

Lemma dump_free_loop (m : memory) (header block : Z) :
  header <> NULL -> block <> NULL ->
  hdr_free m header = block -> blk_nextfree m block = block ->
  forall fuel, __blkmngr_dump fuel m header = OutOfFuel.
Proof.
  intros Hh Hb Hfree Hloop fuel. unfold __blkmngr_dump.
  rewrite (truthy_true header Hh). cbn [assert bind].
  rewrite Hfree, (truthy_true block Hb).
  rewrite (walk_loop m 4 block Hb Hloop).
  destruct (truthy (hdr_head m header)); [|reflexivity].
  destruct (walk fuel m 16 (hdr_head m header)) as [[]| |] eqn:W;
    cbn [bind]; try reflexivity.
  exfalso. exact (walk_never_asserts _ _ _ _ _ W).
Qed.

Lemma add_to_freelist_again_spec (m : memory) (header block : Z) :
  header_ok header -> block_ok block -> header_apart header block ->
  hdr_free m header = block ->
  exists m',
    __blkmngr_add_to_freelist m header block = Ok m'
    /\ hdr_free m' header = block
    /\ blk_nextfree m' block = block
    /\ blk_size m' block = blk_size m block
    /\ hdr_head m' header = hdr_head m header.
Proof.
  intros Hh Hb Hhb Hfree.
  unfold __blkmngr_add_to_freelist.
  rewrite (truthy_true header (header_ok_nonnull _ Hh)).
  rewrite (truthy_true block (block_ok_nonnull _ Hb)).
  cbn [assert bind]. rewrite Hfree, (truthy_true block (block_ok_nonnull _ Hb)).
  eexists. split; [reflexivity|].
  assert (E : hdr_free (set_prevfree (set_prevfree m block block) block NULL)
                header = block) by (mem_simp; exact Hfree).
  rewrite E. mem_simp. repeat split; reflexivity.
Qed.

Lemma chain_frame (m m' : memory) (link : Z) (l : list Z) :
  forall it,
    chain m link it l ->
    (forall b, In b l -> load32 m' (b + link) = load32 m (b + link)) ->
    chain m' link it l.
Proof.
  induction l as [|x l IH]; intros it H Hsame; inversion H; subst.
  - constructor.
  - constructor; [assumption|].
    rewrite (Hsame x (or_introl eq_refl)). apply IH; [assumption|].
    intros b Hb. apply Hsame. right. exact Hb.
Qed.

Lemma separated_in_apart (l : list Z) :
  separated l -> forall x y, In x l -> In y l -> x = y \/ blocks_apart x y.
Proof.
  induction l as [|b l IH]; intros H x y Hx Hy; [contradiction|].
  cbn [separated] in H. destruct H as (_ & Hb & Hs).
  destruct Hx as [<- | Hx], Hy as [<- | Hy].
  - left. reflexivity.
  - right. apply Hb. exact Hy.
  - right. apply blocks_apart_sym, Hb. exact Hx.
  - exact (IH Hs x y Hx Hy).
Qed.

Lemma separated_remove_mid (l1 l2 : list Z) (x : Z) :
  separated (l1 ++ x :: l2) -> separated (l1 ++ l2).
Proof.
  induction l1 as [|a l1 IH]; cbn [app separated]; intro H.
  - destruct H as (_ & _ & H). exact H.
  - destruct H as (Ha & Hap & Hs). split; [exact Ha|].
    split; [|exact (IH Hs)].
    intros c Hc. apply Hap. apply in_app_or in Hc. apply in_or_app.
    destruct Hc; [left | right; right]; assumption.
Qed.

Lemma separated_mid_notin (l1 l2 : list Z) (x : Z) :
  separated (l1 ++ x :: l2) -> ~ In x (l1 ++ l2).
Proof.
  intros H Hin. destruct (separated_split _ _ _ H) as (Hx & H1 & H2).
  apply in_app_or in Hin. destruct Hin as [Hin | Hin].
  - specialize (H1 x Hin). layout.
  - specialize (H2 x Hin). layout.
Qed.

Lemma is_free_frame (m m' : memory) (b : Z) :
  load32 m' b = load32 m b -> is_free m' b = is_free m b.
Proof. unfold is_free, BLOCK_IS_FREE, blk_size. intros ->. reflexivity. Qed.

Lemma real_size_frame (m m' : memory) (b : Z) :
  load32 m' b = load32 m b -> real_size m' b = real_size m b.
Proof. unfold real_size, blk_size. intros ->. reflexivity. Qed.

(** ** Release of a block between used neighbours *)


(** ** Allocation from a block of exactly the rounded size *)

(** X8.  Allocation on a heap in order, when the best fit is no larger
    than the rounded size: no split and no growth; the call returns the
    payload address of that block, the block is marked used and gone from
    the free list, the heap is in order again with the same block list,
    every real size is as before, and the memory descriptor, brk top
    included, is untouched. *)
Theorem malloc_exact_fit_unlinks (fuel : nat) (st : state) (heap : vm_area_struct_t)
  (size block : Z) (lb l1 l2 : list Z) :
  heap_wf (mem st) (vm_start heap) lb (l1 ++ block :: l2) ->
  size <> 0 ->
  __blkmngr_find_best_fitting fuel (mem st) (vm_start heap)
    (__blkmngr_get_rounded_size size) = Ok block ->
  real_size (mem st) block <= __blkmngr_get_rounded_size size ->
  (List.length lb <= fuel)%nat ->
  (List.length (l1 ++ l2) <= fuel)%nat ->
  exists st',
    __do_malloc fuel st heap size = Ok (st', wrap32 (block + OVERHEAD))
    /\ mm st' = mm st
    /\ heap_wf (mem st') (vm_start heap) lb (l1 ++ l2)
    /\ is_free (mem st') block = false
    /\ (forall b, In b lb -> real_size (mem st') b = real_size (mem st) b).
Proof.
  destruct st as [m d]. cbn [mem mm].
  set (header := vm_start heap).
  intros (Hh & Hcb & Hdf & Hsb & Hsf & Hsub & Hha & Hfl) Hsz Hfind Hexact
    Lb Lf.
  pose proof (separated_ok _ Hsb) as Hok.
  pose proof (separated_in_apart _ Hsb) as Hap.
  assert (Hinf : In block (l1 ++ block :: l2))
    by (apply in_or_app; right; left; reflexivity).
  pose proof (Hsub block Hinf) as Hin.
  pose proof (Hok block Hin) as Hb.
  unfold __do_malloc. cbn [mem mm]. fold header.
  apply Z.eqb_neq in Hsz. rewrite Hsz. cbv zeta.
  rewrite Hfind. cbn [bind].
  rewrite (truthy_true block (block_ok_nonnull _ Hb)).
  fold (real_size m block).
  assert (Hns : (real_size m block >? __blkmngr_get_rounded_size size) = false)
    by (rewrite Z.gtb_ltb; apply Z.ltb_ge; exact Hexact).
  rewrite Hns. cbn [bind].
  assert (Hhaf : forall b, In b (l1 ++ block :: l2) -> header_apart header b)
    by (intros b Hb'; apply Hha, Hsub; exact Hb').
  destruct (remove_from_freelist_spec m header block l1 l2 Hh Hsf Hhaf Hdf)
    as (m1 & Hrem & Hd1 & _ & _ & Hframe).
  rewrite Hrem. cbn [bind mem mm].
  set (m2 := BLOCK_SET_USED m1 block).
  assert (F1 : forall b, In b lb ->
                 load32 m1 b = load32 m b
                 /\ load32 m1 (b + 16) = load32 m (b + 16)).
  { intros b Hb'. pose proof (Hok b Hb'). pose proof (Hha b Hb').
    split; apply Hframe; try layout; intros c Hc;
      pose proof (Hok c (Hsub c Hc)); destruct (Hap b c Hb' (Hsub c Hc));
      layout. }
  assert (Hhead1 : load32 m1 header = load32 m header).
  { apply Hframe; try layout. intros c Hc.
    pose proof (Hok c (Hsub c Hc)). pose proof (Hha c (Hsub c Hc)). layout. }
  assert (F2 : forall b, In b lb ->
                 load32 m2 (b + 16) = load32 m1 (b + 16)
                 /\ load32 m2 (b + 4) = load32 m1 (b + 4)
                 /\ load32 m2 (b + 8) = load32 m1 (b + 8)
                 /\ (b <> block -> load32 m2 b = load32 m1 b)).
  { intros b Hb'. pose proof (Hok b Hb').
    assert (b = block \/ blocks_apart b block) by (apply Hap; assumption).
    subst m2. unfold BLOCK_SET_USED. mem_simp.
    repeat split. intro Hne.
    rewrite load32_store32_other by layout. reflexivity. }
  assert (Hcb2 : chain m2 16 (hdr_head m2 header) lb).
  { replace (hdr_head m2 header) with (hdr_head m header).
    - apply (chain_frame m); [exact Hcb|]. intros b Hb'.
      rewrite (proj1 (F2 b Hb')). apply (F1 b Hb').
    - unfold hdr_head. rewrite <- Hhead1.
      pose proof (Hha block Hin). subst m2. unfold BLOCK_SET_USED.
      mem_simp. reflexivity. }
  assert (Hsub2 : forall b, In b (l1 ++ l2) -> In b lb).
  { intros b Hb'. apply Hsub. apply in_app_or in Hb'. apply in_or_app.
    destruct Hb'; [left | right; right]; assumption. }
  assert (Hd2 : dchain m2 NULL (hdr_free m2 header) (l1 ++ l2)).
  { replace (hdr_free m2 header) with (hdr_free m1 header).
    - apply (dchain_frame m1); [exact Hd1|]. intros b Hb'.
      destruct (F2 b (Hsub2 b Hb')) as (_ & E4 & E8 & _).
      unfold blk_prevfree, blk_nextfree. split; assumption.
    - pose proof (Hha block Hin). subst m2. unfold BLOCK_SET_USED.
      mem_simp. reflexivity. }
  rewrite (dump_chains fuel m2 header lb (l1 ++ l2)
             (header_ok_nonnull _ Hh) Hcb2 (dchain_chain _ _ _ _ Hd2) Lb Lf).
  cbn [bind]. eexists. split; [reflexivity|]. cbn [mem mm].
  split; [reflexivity|].
  assert (Hused : is_free m2 block = false)
    by (subst m2; apply flag_macros_spec).
  split; [|split; [exact Hused|]].
  - split; [exact Hh|]. split; [exact Hcb2|]. split; [exact Hd2|].
    split; [exact Hsb|]. split; [exact (separated_remove_mid _ _ _ Hsf)|].
    split; [exact Hsub2|]. split; [exact Hha|].
    intros b Hb'. destruct (Z.eq_dec b block) as [-> | Hne].
    + rewrite Hused. split; [discriminate|].
      intro H. exfalso. exact (separated_mid_notin _ _ _ Hsf H).
    + destruct (F2 b Hb') as (_ & _ & _ & E). specialize (E Hne).
      rewrite (is_free_frame m1 m2 b E).
      rewrite (is_free_frame m m1 b (proj1 (F1 b Hb'))).
      rewrite (Hfl b Hb'). split; intro H.
      * apply in_app_or in H. apply in_or_app.
        destruct H as [H | [H | H]]; [left; exact H | congruence | right; exact H].
      * apply in_app_or in H. apply in_or_app.
        destruct H; [left | right; right]; assumption.
  - intros b Hb'. destruct (Z.eq_dec b block) as [-> | Hne].
    + subst m2.
      rewrite (proj1 (proj2 (proj2 (flag_macros_spec m1 block)))).
      apply real_size_frame, (F1 block Hin).
    + destruct (F2 b Hb') as (_ & _ & _ & E). specialize (E Hne).
      rewrite (real_size_frame m1 m2 b E).
      apply real_size_frame, (F1 b Hb').
Qed.

(** ** Release of the block at the head of the free list *)

(** X9.  Release of the block that is the head of the free list, its
    neighbours absent or used, as when a block between used neighbours is
    released twice in a row: the call returns for no amount of fuel. *)
Theorem free_of_free_head_never_returns (fuel : nat) (st : state) (heap : vm_area_struct_t)
  (block : Z) :
  header_ok (vm_start heap) ->
  block_ok block ->
  header_apart (vm_start heap) block ->
  hdr_free (mem st) (vm_start heap) = block ->
  (let prev := if block =? hdr_head (mem st) (vm_start heap) then NULL
               else blk_prev (mem st) block in
   prev = NULL
   \/ (word_ok prev /\ words_apart prev block
       /\ is_free (mem st) prev = false)) ->
  (let next := if block =? hdr_tail (mem st) (vm_start heap) then NULL
               else blk_next (mem st) block in
   next = NULL
   \/ (word_ok next /\ words_apart next block
       /\ is_free (mem st) next = false)) ->
  __do_free fuel st heap (block + OVERHEAD) = OutOfFuel.
Proof.
  destruct st as [m d]. cbn [mem mm].
  set (header := vm_start heap).
  intros Hh Hb Hhb Hfree Hprev Hnext.
  unfold __do_free. cbn [mem mm]. fold header.
  replace (wrap32 (block + OVERHEAD - OVERHEAD)) with block
    by (symmetry; replace (block + OVERHEAD - OVERHEAD) with block by lia;
        apply wrap32_small; layout).
  unfold __blkmngr_get_previous_block, __blkmngr_get_next_block.
  rewrite (truthy_true header (header_ok_nonnull _ Hh)).
  rewrite (truthy_true block (block_ok_nonnull _ Hb)).
  cbn [assert bind].
  set (prev := if block =? hdr_head m header then NULL else blk_prev m block)
    in *.
  set (next := if block =? hdr_tail m header then NULL else blk_next m block)
    in *.
  replace (if block =? hdr_head m header then Ok NULL
           else Ok (blk_prev m block)) with (@Ok Z prev)
    by (subst prev; destruct (block =? hdr_head m header); reflexivity).
  replace (if block =? hdr_tail m header then Ok NULL
           else Ok (blk_next m block)) with (@Ok Z next)
    by (subst next; destruct (block =? hdr_tail m header); reflexivity).
  cbn [bind].
  set (m1 := BLOCK_SET_FREE m block).
  assert (Hothers : forall b, word_ok b -> words_apart b block ->
                      load32 m1 b = load32 m b).
  { intros b Hb' A. subst m1. unfold BLOCK_SET_FREE. mem_simp. reflexivity. }
  assert (Cp : truthy prev && truthy (BLOCK_IS_FREE m1 prev) = false).
  { destruct Hprev as [-> | (Hp & Hne & Hnf)]; [reflexivity|].
    fold (is_free m1 prev).
    rewrite (is_free_frame m m1 prev (Hothers prev Hp Hne)), Hnf.
    apply andb_false_r. }
  assert (Cn : truthy next && truthy (BLOCK_IS_FREE m1 next) = false).
  { destruct Hnext as [-> | (Hp & Hne & Hnf)]; [reflexivity|].
    fold (is_free m1 next).
    rewrite (is_free_frame m m1 next (Hothers next Hp Hne)), Hnf.
    apply andb_false_r. }
  assert (C1 : truthy prev && truthy next && truthy (BLOCK_IS_FREE m1 prev)
               && truthy (BLOCK_IS_FREE m1 next) = false).
  { destruct (truthy prev); [|reflexivity].
    destruct (truthy next); [|reflexivity]. cbn [andb] in *.
    rewrite Cp. reflexivity. }
  rewrite C1, Cp, Cn.
  assert (Hfree1 : hdr_free m1 header = block).
  { rewrite <- Hfree. subst m1. unfold BLOCK_SET_FREE. mem_simp. reflexivity. }
  destruct (add_to_freelist_again_spec m1 header block Hh Hb Hhb Hfree1)
    as (m2 & Hadd & Hf2 & Hloop & _).
  rewrite Hadd. cbn [bind].
  rewrite (dump_free_loop m2 header block (header_ok_nonnull _ Hh)
             (block_ok_nonnull _ Hb) Hf2 Hloop fuel).
  reflexivity.
Qed.

(** ** Release of a block before a free successor *)





Lemma lor1_real (x : Z) :
  0 <= x < 2 ^ 32 -> x mod 2 = 0 -> BLOCK_REAL_SIZE (Z.lor x 1) = x.
Proof.
  intros Hx He. rewrite set_flag_bit, He. unfold BLOCK_REAL_SIZE.
  change (2 ^ 32) with 4294967296 in Hx.
  pose proof (Z.div_mod x 2).
  rewrite clear_flag_bit by (change (2 ^ 32) with 4294967296; lia).
  replace ((x + 1 - 0) mod 2) with 1; [lia|].
  rewrite Z.sub_0_r, Z.add_mod, He by discriminate. reflexivity.
Qed.

Lemma lor1_flag (x : Z) : truthy (Z.land (Z.lor x 1) 1) = true.
Proof.
  rewrite flag_bit, set_flag_bit.
  replace ((x + 1 - x mod 2) mod 2) with 1; [reflexivity|].
  symmetry. apply mod2_set.
Qed.


(** ** Free-list manager, as its callers see it *)

Lemma separated_cons_apart (block : Z) (l : list Z) :
  separated (block :: l) ->
  forall b c, In b (block :: l) -> In c (block :: l) ->
              block_ok b /\ (b = c \/ blocks_apart b c).
Proof.
  intros H b c Hb Hc. split; [exact (separated_ok _ H b Hb)|].
  exact (separated_in_apart _ H b c Hb Hc).
Qed.

(** Insertion touches the free links and the free head only. *)
Lemma add_to_freelist_fields (m m' : memory) (header block : Z) (l : list Z) :
  header_ok header ->
  separated (block :: l) ->
  (forall b, In b (block :: l) -> header_apart header b) ->
  (forall a,
      word_ok a ->
      words_apart a (block + 4) -> words_apart a (block + 8) ->
      words_apart a (header + 8) ->
      (l = [] \/ words_apart a (hd NULL l + 8)) ->
      load32 m' a = load32 m a) ->
  (forall b, In b (block :: l) ->
             blk_size m' b = blk_size m b
             /\ blk_prev m' b = blk_prev m b
             /\ blk_next m' b = blk_next m b)
  /\ hdr_head m' header = hdr_head m header
  /\ hdr_tail m' header = hdr_tail m header.
Proof.
  intros Hh Hsep Hha Hframe.
  pose proof (separated_cons_apart _ _ Hsep) as Hap.
  assert (Hblock : In block (block :: l)) by (left; reflexivity).
  assert (Hlast : forall a,
             (forall c, In c (block :: l) -> words_apart a (c + 8)) ->
             l = [] \/ words_apart a (hd NULL l + 8)).
  { intros a Ha. destruct l as [|x l']; [left; reflexivity | right].
    apply Ha. right. left. reflexivity. }
  split; [|split].
  - intros b Hb. destruct (Hap b block Hb Hblock) as [Hbok Hbb].
    pose proof (Hha b Hb) as Hhb.
    unfold blk_size, blk_prev, blk_next.
    repeat split; apply Hframe; try layout; apply Hlast; intros c Hc;
      destruct (Hap b c Hb Hc) as [_ Hbc];
      destruct (Hap c c Hc Hc) as [Hcok _]; layout.
  - pose proof (Hha block Hblock). destruct (Hap block block Hblock Hblock).
    unfold hdr_head. apply Hframe; try layout. apply Hlast. intros c Hc.
    pose proof (Hha c Hc). destruct (Hap c c Hc Hc) as [Hcok _]. layout.
  - pose proof (Hha block Hblock). destruct (Hap block block Hblock Hblock).
    unfold hdr_tail. apply Hframe; try layout. apply Hlast. intros c Hc.
    pose proof (Hha c Hc). destruct (Hap c c Hc Hc) as [Hcok _]. layout.
Qed.

(** X11.  On a free list with consistent back links, whose nodes, the new
    block and the header do not overlap, insertion returns and puts the
    block first, the old list behind it, back links consistent; size, prev
    and next of the block and of every node, and head and tail of the
    header, are as they were. *)
Theorem add_to_freelist_pushes :
  forall (m : memory) (header block : Z) (l : list Z),
    header_ok header ->
    separated (block :: l) ->
    (forall b, In b (block :: l) -> header_apart header b) ->
    dchain m NULL (hdr_free m header) l ->
    exists m',
      __blkmngr_add_to_freelist m header block = Ok m'
      /\ dchain m' NULL (hdr_free m' header) (block :: l)
      /\ (forall b, In b (block :: l) ->
                    blk_size m' b = blk_size m b
                    /\ blk_prev m' b = blk_prev m b
                    /\ blk_next m' b = blk_next m b)
      /\ hdr_head m' header = hdr_head m header
      /\ hdr_tail m' header = hdr_tail m header.
Proof.
  intros m header block l Hh Hsep Hha Hd.
  destruct (add_to_freelist_spec m header block l Hh Hsep Hha Hd)
    as (m' & Hrun & Hd' & Hframe).
  exists m'. split; [exact Hrun|]. split; [exact Hd'|].
  exact (add_to_freelist_fields m m' header block l Hh Hsep Hha Hframe).
Qed.

(** Removal touches the free links and the free head only. *)
Lemma remove_from_freelist_fields (m m' : memory) (header : Z) (l : list Z) :
  header_ok header ->
  separated l ->
  (forall b, In b l -> header_apart header b) ->
  (forall a,
      word_ok a ->
      (forall b, In b l -> words_apart a (b + 4) /\ words_apart a (b + 8)) ->
      words_apart a (header + 8) ->
      load32 m' a = load32 m a) ->
  (forall b, In b l ->
             blk_size m' b = blk_size m b
             /\ blk_prev m' b = blk_prev m b
             /\ blk_next m' b = blk_next m b)
  /\ hdr_head m' header = hdr_head m header
  /\ hdr_tail m' header = hdr_tail m header.
Proof.
  intros Hh Hsep Hha Hframe.
  pose proof (separated_ok _ Hsep) as Hok.
  pose proof (separated_in_apart _ Hsep) as Hap.
  split; [|split].
  - intros b Hb. pose proof (Hok b Hb). pose proof (Hha b Hb).
    unfold blk_size, blk_prev, blk_next.
    repeat split; apply Hframe; try layout; intros c Hc;
      pose proof (Hok c Hc); destruct (Hap b c Hb Hc); layout.
  - unfold hdr_head. apply Hframe; try layout. intros c Hc.
    pose proof (Hok c Hc). pose proof (Hha c Hc). layout.
  - unfold hdr_tail. apply Hframe; try layout. intros c Hc.
    pose proof (Hok c Hc). pose proof (Hha c Hc). layout.
Qed.

(** X12.  On a free list with consistent back links whose nodes and the
    header do not overlap, removal of a member returns and leaves the list
    without it, in the same order, back links consistent; the free links of
    the removed block are null; size, prev and next of every node, and head
    and tail of the header, are as they were. *)
Theorem remove_from_freelist_unlinks :
  forall (m : memory) (header block : Z) (l1 l2 : list Z),
    header_ok header ->
    separated (l1 ++ block :: l2) ->
    (forall b, In b (l1 ++ block :: l2) -> header_apart header b) ->
    dchain m NULL (hdr_free m header) (l1 ++ block :: l2) ->
    exists m',
      __blkmngr_remove_from_freelist m header block = Ok m'
      /\ dchain m' NULL (hdr_free m' header) (l1 ++ l2)
      /\ blk_prevfree m' block = NULL
      /\ blk_nextfree m' block = NULL
      /\ (forall b, In b (l1 ++ block :: l2) ->
                    blk_size m' b = blk_size m b
                    /\ blk_prev m' b = blk_prev m b
                    /\ blk_next m' b = blk_next m b)
      /\ hdr_head m' header = hdr_head m header
      /\ hdr_tail m' header = hdr_tail m header.
Proof.
  intros m header block l1 l2 Hh Hsep Hha Hd.
  destruct (remove_from_freelist_spec m header block l1 l2 Hh Hsep Hha Hd)
    as (m' & Hrun & Hd' & Hp & Hn & Hframe).
  exists m'. split; [exact Hrun|]. split; [exact Hd'|].
  split; [exact Hp|]. split; [exact Hn|].
  exact (remove_from_freelist_fields m m' header _ Hh Hsep Hha Hframe).
Qed.

(** X13.  Insertion followed by removal of the same block gives back the
    free list: the same nodes in the same order with consistent back links,
    the same free head, and size, prev and next of the block and of every
    node as before. *)
Theorem add_then_remove_restores :
  forall (m : memory) (header block : Z) (l : list Z),
    header_ok header ->
    separated (block :: l) ->
    (forall b, In b (block :: l) -> header_apart header b) ->
    dchain m NULL (hdr_free m header) l ->
    exists m1 m2,
      __blkmngr_add_to_freelist m header block = Ok m1
      /\ __blkmngr_remove_from_freelist m1 header block = Ok m2
      /\ dchain m2 NULL (hdr_free m2 header) l
      /\ hdr_free m2 header = hdr_free m header
      /\ (forall b, In b (block :: l) ->
                    blk_size m2 b = blk_size m b
                    /\ blk_prev m2 b = blk_prev m b
                    /\ blk_next m2 b = blk_next m b).
Proof.
  intros m header block l Hh Hsep Hha Hd.
  destruct (add_to_freelist_spec m header block l Hh Hsep Hha Hd)
    as (m1 & Hadd & Hd1 & Hf1).
  destruct (remove_from_freelist_spec m1 header block [] l Hh Hsep Hha Hd1)
    as (m2 & Hrem & Hd2 & _ & _ & Hf2).
  cbn [app] in Hd2.
  exists m1, m2. split; [exact Hadd|]. split; [exact Hrem|].
  split; [exact Hd2|]. split.
  - transitivity (hd NULL l);
      [exact (dchain_head _ _ _ _ Hd2)
      | symmetry; exact (dchain_head _ _ _ _ Hd)].
  - destruct (add_to_freelist_fields m m1 header block l Hh Hsep Hha Hf1)
      as (A & _ & _).
    destruct (remove_from_freelist_fields m1 m2 header (block :: l) Hh Hsep
                Hha Hf2) as (R & _ & _).
    intros b Hb. destruct (A b Hb) as (A1 & A2 & A3).
    destruct (R b Hb) as (R1 & R2 & R3).
    repeat split; congruence.
Qed.

(** ** Merge, continued *)

(** X14.  Merge of a free block with the free block after it, a member of
    a free list in order: the second block leaves the free list, the first
    takes over its next link, stays free and has the two real sizes plus one
    header as real size, and becomes the tail when the second was the
    tail. *)
Theorem merge_absorbs_second :
  forall (m : memory) (header block1 block2 : Z) (l1 l2 : list Z),
    header_ok header ->
    separated (l1 ++ block2 :: l2) ->
    (forall b, In b (l1 ++ block2 :: l2) -> header_apart header b) ->
    dchain m NULL (hdr_free m header) (l1 ++ block2 :: l2) ->
    block_ok block1 ->
    header_apart header block1 ->
    blocks_apart block1 block2 ->
    (forall b, In b (l1 ++ l2) -> b = block1 \/ blocks_apart block1 b) ->
    is_free m block1 = true ->
    is_free m block2 = true ->
    blk_next m block1 = block2 ->
    real_size m block1 + real_size m block2 + OVERHEAD < 2 ^ 32 ->
    exists m',
      __blkmngr_merge_blocks m header block1 block2 = Ok m'
      /\ dchain m' NULL (hdr_free m' header) (l1 ++ l2)
      /\ real_size m' block1
         = real_size m block1 + OVERHEAD + real_size m block2
      /\ is_free m' block1 = true
      /\ blk_next m' block1 = blk_next m block2
      /\ blk_prev m' block1 = blk_prev m block1
      /\ hdr_tail m' header
         = (if hdr_tail m header =? block2 then block1
            else hdr_tail m header)
      /\ hdr_head m' header = hdr_head m header.
Proof.
  intros m header block1 block2 l1 l2 Hh Hsep Hha Hd Hb1 Hhb1 Hb12 Hl
    Hf1 Hf2 Hnext Hsum.
  destruct (merge_blocks_spec m header block1 block2 l1 l2 Hh Hsep Hha Hd
              Hb1 Hhb1 Hb12 Hl Hf1 Hf2 Hnext)
    as (m' & Hrun & Hd' & Hn & Hp & Hsz & Ht & Hhd & _).
  exists m'. split; [exact Hrun|]. split; [exact Hd'|].
  pose proof (real_size_range m block1) as R1.
  pose proof (real_size_range m block2) as R2.
  rewrite wrap32_small in Hsz
    by (unfold OVERHEAD, sizeof_block_t in *; lia).
  split.
  - unfold real_size at 1. rewrite Hsz, lor1_real.
    + lia.
    + unfold OVERHEAD, sizeof_block_t in *. lia.
    + pose proof (real_size_even m block1) as E1.
      pose proof (real_size_even m block2) as E2.
      unfold OVERHEAD, sizeof_block_t.
      rewrite Z.add_mod, (Z.add_mod (real_size m block1)), E1, E2
        by discriminate. reflexivity.
  - split.
    + unfold is_free, BLOCK_IS_FREE. rewrite Hsz. apply lor1_flag.
    + repeat split; assumption.
Qed.

(** X15.  Merge links the first block to the successor of the absorbed one
    but writes nothing into that successor: its prev link is what it was, so
    a successor that designated the absorbed block still does. *)
Theorem merge_leaves_successor_prev :
  forall (m : memory) (header block1 block2 next : Z) (l1 l2 : list Z),
    header_ok header ->
    separated (l1 ++ block2 :: l2) ->
    (forall b, In b (l1 ++ block2 :: l2) -> header_apart header b) ->
    dchain m NULL (hdr_free m header) (l1 ++ block2 :: l2) ->
    block_ok block1 ->
    header_apart header block1 ->
    blocks_apart block1 block2 ->
    (forall b, In b (l1 ++ l2) -> b = block1 \/ blocks_apart block1 b) ->
    is_free m block1 = true ->
    is_free m block2 = true ->
    blk_next m block1 = block2 ->
    blk_next m block2 = next ->
    block_ok next ->
    header_apart header next ->
    blocks_apart next block1 ->
    (forall b, In b (l1 ++ block2 :: l2) -> b = next \/ blocks_apart next b) ->
    exists m',
      __blkmngr_merge_blocks m header block1 block2 = Ok m'
      /\ blk_next m' block1 = next
      /\ blk_prev m' next = blk_prev m next.
Proof.
  intros m header block1 block2 next l1 l2 Hh Hsep Hha Hd Hb1 Hhb1 Hb12 Hl
    Hf1 Hf2 Hnext Hnn Hn Hhn Hn1 Hnl.
  destruct (merge_blocks_spec m header block1 block2 l1 l2 Hh Hsep Hha Hd
              Hb1 Hhb1 Hb12 Hl Hf1 Hf2 Hnext)
    as (m' & Hrun & _ & Hn' & _ & _ & _ & _ & Hframe).
  exists m'. split; [exact Hrun|]. split; [congruence|].
  unfold blk_prev. apply Hframe; try layout.
  intros b Hb. pose proof (separated_ok _ Hsep b Hb).
  destruct (Hnl b Hb); layout.
Qed.

(** ** Inserting the free head again *)

(** X16.  Inserting the block that already is the head of the free list
    makes the block its own successor: the free list no longer ends, and
    the debug dump of that heap returns for no amount of fuel. *)
Theorem add_to_freelist_twice_loops :
  forall (m : memory) (header block : Z),
    header_ok header ->
    block_ok block ->
    header_apart header block ->
    hdr_free m header = block ->
    exists m',
      __blkmngr_add_to_freelist m header block = Ok m'
      /\ hdr_free m' header = block
      /\ blk_nextfree m' block = block
      /\ (forall fuel, free_list fuel m' header = None)
      /\ (forall fuel, __blkmngr_dump fuel m' header = OutOfFuel).
Proof.
  intros m header block Hh Hb Hhb Hfree.
  destruct (add_to_freelist_again_spec m header block Hh Hb Hhb Hfree)
    as (m' & Hrun & Hf & Hloop & _).
  exists m'. split; [exact Hrun|]. split; [exact Hf|]. split; [exact Hloop|].
  split.
  - intro fuel. unfold free_list. rewrite Hf.
    exact (nodes_loop m' 4 block (block_ok_nonnull _ Hb) Hloop fuel).
  - exact (dump_free_loop m' header block (header_ok_nonnull _ Hh)
             (block_ok_nonnull _ Hb) Hf Hloop).
Qed.

(** X17.  On a heap whose block list and free list both end in null, the
    debug dump returns as soon as the fuel covers the longer of the two, and
    the walks of the two lists give exactly their nodes. *)
Theorem dump_returns_on_chains :
  forall (fuel : nat) (m : memory) (header : Z) (lb lf : list Z),
    header <> NULL ->
    chain m 16 (hdr_head m header) lb ->
    chain m 4 (hdr_free m header) lf ->
    (List.length lb <= fuel)%nat ->
    (List.length lf <= fuel)%nat ->
    __blkmngr_dump fuel m header = Ok tt
    /\ block_list fuel m header = Some lb
    /\ free_list fuel m header = Some lf.
Proof.
  intros fuel m header lb lf Hh Hb Hf Lb Lf.
  split; [exact (dump_chains fuel m header lb lf Hh Hb Hf Lb Lf)|].
  assert (N : forall link l fuel0 it,
             chain m link it l -> (List.length l <= fuel0)%nat ->
             nodes fuel0 m link it = Some l).
  { intros link l. induction l as [|x l IH]; intros fuel0 it H Hl;
      inversion H; subst.
    - destruct fuel0; reflexivity.
    - destruct fuel0 as [|fuel0]; [simpl in Hl; lia|]. cbn [nodes].
      match goal with Hx : x <> NULL |- _ =>
        apply Z.eqb_neq in Hx; rewrite Hx end.
      rewrite (IH fuel0); [reflexivity | assumption | simpl in Hl; lia]. }
  split; [exact (N 16 lb fuel _ Hb Lb) | exact (N 4 lf fuel _ Hf Lf)].
Qed.

(** ** The C library on top of the call *)

Lemma do_malloc_result_range (fuel : nat) (st : state)
  (heap : vm_area_struct_t) (size : Z) (st' : state) (p : Z) :
  __do_malloc fuel st heap size = Ok (st', p) -> 0 <= p < 2 ^ 32.
Proof.
  intro H. destruct (Z.eq_dec size 0) as [-> | Hsz].
  - cbn in H. injection H as _ <-. unfold NULL. change (2 ^ 32) with 4294967296. lia.
  - destruct (do_malloc_returns_payload fuel st heap size st' p Hsz H)
      as (block & _ & -> & _).
    apply wrap32_range.
Qed.

Lemma sys_brk_result_range (fuel : nat) (st : state) (addr : Z)
  (st' : state) (p : Z) :
  sys_brk fuel st addr = Ok (st', p) -> 0 <= p < 2 ^ 32.
Proof.
  unfold sys_brk. intro H.
  destruct (match find_vm_area (mm st) (start_brk (mm st)) with
            | Some heap => Ok (st, heap)
            | None => heap_create fuel st
            end) as [[st0 heap]| |]; cbn [bind] in H; try discriminate.
  destruct ((addr >? vm_start heap) && (addr <? vm_end heap)).
  - destruct (__do_free fuel st0 heap addr); cbn [bind] in H;
      try discriminate.
    injection H as _ <-. unfold NULL. change (2 ^ 32) with 4294967296. lia.
  - exact (do_malloc_result_range _ _ _ _ _ _ H).
Qed.

(** X18.  A pointer returned by the library's [malloc] that is at least
    one header in size, hence not null, is the value returned by the brk
    call plus that header; the magic number and the requested size are in
    the header in front of it; and the library's [free] of that pointer
    passes its check and makes the brk call on the header address. *)
Theorem malloc_result_accepted_by_free :
  forall (fuel : nat) (st st' : state) (size p : Z),
    malloc fuel st size = Ok (st', p) ->
    sizeof_malloc_header_t <= p ->
    (exists st1,
        sys_brk fuel st (wrap32 (size + sizeof_malloc_header_t))
        = Ok (st1, p - sizeof_malloc_header_t)
        /\ mm st' = mm st1)
    /\ load32 (mem st') (p - 8) = MALLOC_MAGIC_NUMBER
    /\ load32 (mem st') (p - 4) = wrap32 size
    /\ free fuel st' p
       = (sr <- sys_brk fuel st' (p - sizeof_malloc_header_t) ;; Ok (fst sr)).
Proof.
  intros fuel st st' size p H Hp. unfold malloc in H.
  unfold sizeof_malloc_header_t in *.
  destruct (size =? 0).
  { injection H as _ <-. unfold NULL in Hp. lia. }
  destruct (sys_brk fuel st (wrap32 (size + 8))) as [[st1 ptr]| |] eqn:Hbrk;
    cbn [bind] in H; try discriminate.
  pose proof (sys_brk_result_range _ _ _ _ _ Hbrk) as Hr.
  change (2 ^ 32) with 4294967296 in Hr.
  destruct (ptr =? 0).
  { injection H as _ <-. unfold NULL in Hp. lia. }
  cbv zeta in H. injection H as <- <-.
  unfold malloc_header_to_ptr, sizeof_malloc_header_t in *.
  assert (Hnw : ptr + 8 < 4294967296).
  { unfold wrap32 in Hp. change (2 ^ 32) with 4294967296 in Hp.
    destruct (Z_lt_ge_dec (ptr + 8) 4294967296) as [L | G]; [exact L|].
    exfalso.
    replace (ptr + 8) with ((ptr + 8 - 4294967296) + 1 * 4294967296) in Hp
      by lia.
    rewrite Z.mod_add, Z.mod_small in Hp by lia. lia. }
  rewrite (wrap32_small (ptr + 8)) by (change (2 ^ 32) with 4294967296; lia).
  replace (ptr + 8 - 8) with ptr by lia.
  replace (ptr + 8 - 4) with (ptr + 4) by lia.
  cbn [mem mm].
  assert (Hmagic : load32 (store32 (store32 (mem st1) ptr MALLOC_MAGIC_NUMBER)
                             (ptr + 4) size) ptr = MALLOC_MAGIC_NUMBER).
  { rewrite load32_store32_other by layout.
    apply load32_store32_value. vm_compute. split; congruence. }
  split; [exists st1; split; reflexivity|].
  split; [exact Hmagic|]. split; [apply load32_store32_same|].
  unfold free, ptr_to_malloc_header, sizeof_malloc_header_t. cbn [mem].
  replace (ptr + 8 - 8) with ptr by lia.
  rewrite (wrap32_small ptr) by (change (2 ^ 32) with 4294967296; lia).
  rewrite Hmagic, Z.eqb_refl. reflexivity.
Qed.

(** X19.  On an initialized heap, the library's [malloc] of a non-zero size
    which, with the header added, falls strictly inside the heap region
    allocates nothing: the kernel runs the free path on that number and
    [malloc] answers null. *)
Theorem malloc_of_region_sized_request_frees :
  forall (fuel : nat) (st : state) (heap : vm_area_struct_t) (size : Z),
    find_vm_area (mm st) (start_brk (mm st)) = Some heap ->
    size <> 0 ->
    vm_start heap < wrap32 (size + sizeof_malloc_header_t) < vm_end heap ->
    malloc fuel st size
    = (st' <- __do_free fuel st heap
                (wrap32 (size + sizeof_malloc_header_t)) ;;
       Ok (st', NULL)).
Proof.
  intros fuel st heap size Hheap Hsz [Hlo Hhi].
  unfold malloc. apply Z.eqb_neq in Hsz. rewrite Hsz.
  unfold sys_brk. rewrite Hheap. cbn [bind].
  apply Z.lt_gt, Z.gtb_gt in Hlo. apply Z.ltb_lt in Hhi.
  rewrite Hlo, Hhi. cbn [andb].
  destruct (__do_free fuel st heap (wrap32 (size + sizeof_malloc_header_t)));
    reflexivity.
Qed.

(** ** Instances *)

Lemma existsb_eqb_in (b : Z) (l : list Z) :
  existsb (Z.eqb b) l = true <-> In b l.
Proof.
  rewrite existsb_exists. split.
  - intros (x & Hx & E). apply Z.eqb_eq in E. subst x. exact Hx.
  - intro H. exists b. split; [exact H | apply Z.eqb_refl].
Qed.

Lemma heap_wf_intro (fuel : nat) (m : memory) (header : Z) (lb lf : list Z) :
  header_ok header ->
  nodes fuel m 16 (hdr_head m header) = Some lb ->
  dnodes m NULL (hdr_free m header) lf = true ->
  separatedb lb = true ->
  separatedb lf = true ->
  forallb (fun b => existsb (Z.eqb b) lb) lf = true ->
  header_apartb header lb = true ->
  forallb (fun b => Bool.eqb (is_free m b) (existsb (Z.eqb b) lf)) lb = true ->
  heap_wf m header lb lf.
Proof.
  intros Hh Hn Hd Hsb Hsf Hsub Hha Hfl.
  split; [exact Hh|]. split; [exact (nodes_chain m 16 fuel _ _ Hn)|].
  split; [exact (dnodes_dchain m lf _ _ Hd)|].
  split; [exact (separatedb_separated _ Hsb)|].
  split; [exact (separatedb_separated _ Hsf)|]. split.
  - rewrite forallb_forall in Hsub. intros b Hb.
    apply existsb_eqb_in. exact (Hsub b Hb).
  - split; [exact (header_apartb_apart _ _ Hha)|].
    rewrite forallb_forall in Hfl. intros b Hb.
    specialize (Hfl b Hb). apply eqb_prop in Hfl. rewrite Hfl.
    apply existsb_eqb_in.
Qed.

Ltac concrete :=
  unfold header_ok, block_ok, blocks_apart, header_apart, word_ok, words_apart,
    heap_base, OVERHEAD, sizeof_heap_header_t, sizeof_block_t, NULL;
  change (2 ^ 32) with 4294967296; lia.

Lemma do_brk_twice_contiguous_witness :
  heap_base + 32 = wrap32 (heap_base + 12 + 20)
  /\ heap_base + 68 = wrap32 (heap_base + 32 + 36).
Proof.
  apply (do_brk_twice_contiguous
           (mk_mm heap_base (heap_base + 12) [heap_area])
           (mk_mm heap_base (heap_base + 32) [heap_area])
           (mk_mm heap_base (heap_base + 68) [heap_area])
           heap_area 20 36 (heap_base + 12) (heap_base + 32)).
  - vm_compute. congruence.
  - reflexivity.
  - vm_compute. congruence.
  - reflexivity.
Defined.

Lemma add_to_freelist_pushes_witness :
  exists m',
    __blkmngr_add_to_freelist (mem_after [16; 16; 0x400000A4]) heap_base
      (heap_base + 180) = Ok m'
    /\ dchain m' NULL (hdr_free m' heap_base)
         [heap_base + 180; heap_base + 144; heap_base + 216].
Proof.
  destruct (add_to_freelist_pushes (mem_after [16; 16; 0x400000A4]) heap_base
              (heap_base + 180) [heap_base + 144; heap_base + 216])
    as (m' & Hrun & Hd & _).
  - concrete.
  - apply separatedb_separated. vm_compute. reflexivity.
  - apply header_apartb_apart. vm_compute. reflexivity.
  - apply dnodes_dchain. vm_compute. reflexivity.
  - exists m'. split; assumption.
Defined.

Lemma remove_from_freelist_unlinks_witness :
  exists m',
    __blkmngr_remove_from_freelist (mem_after [16; 16; 0x400000A4]) heap_base
      (heap_base + 216) = Ok m'
    /\ dchain m' NULL (hdr_free m' heap_base) [heap_base + 144].
Proof.
  destruct (remove_from_freelist_unlinks (mem_after [16; 16; 0x400000A4])
              heap_base (heap_base + 216) [heap_base + 144] [])
    as (m' & Hrun & Hd & _).
  - concrete.
  - apply separatedb_separated. vm_compute. reflexivity.
  - apply header_apartb_apart. vm_compute. reflexivity.
  - apply dnodes_dchain. vm_compute. reflexivity.
  - exists m'. split; assumption.
Defined.

Lemma add_then_remove_restores_witness :
  exists m1 m2,
    __blkmngr_add_to_freelist (mem_after [16; 16; 0x400000A4]) heap_base
      (heap_base + 180) = Ok m1
    /\ __blkmngr_remove_from_freelist m1 heap_base (heap_base + 180) = Ok m2
    /\ dchain m2 NULL (hdr_free m2 heap_base)
         [heap_base + 144; heap_base + 216].
Proof.
  destruct (add_then_remove_restores (mem_after [16; 16; 0x400000A4])
              heap_base (heap_base + 180) [heap_base + 144; heap_base + 216])
    as (m1 & m2 & Hadd & Hrem & Hd & _).
  - concrete.
  - apply separatedb_separated. vm_compute. reflexivity.
  - apply header_apartb_apart. vm_compute. reflexivity.
  - apply dnodes_dchain. vm_compute. reflexivity.
  - exists m1, m2. repeat split; assumption.
Defined.

Lemma add_to_freelist_twice_loops_witness :
  exists m',
    __blkmngr_add_to_freelist (mem_after [16; 16; 0x400000A4]) heap_base
      (heap_base + 144) = Ok m'
    /\ forall fuel, __blkmngr_dump fuel m' heap_base = OutOfFuel.
Proof.
  destruct (add_to_freelist_twice_loops (mem_after [16; 16; 0x400000A4])
              heap_base (heap_base + 144))
    as (m' & Hrun & _ & _ & _ & Hdump).
  - concrete.
  - concrete.
  - concrete.
  - vm_compute. reflexivity.
  - exists m'. split; assumption.
Defined.

Lemma free_of_free_head_never_returns_witness :
  __do_free 20 (state_after [16; 16; 0x400000A4]) heap_area
    (heap_base + 144 + OVERHEAD) = OutOfFuel.
Proof.
  apply (free_of_free_head_never_returns 20 (state_after [16; 16; 0x400000A4]) heap_area
           (heap_base + 144)).
  - cbn. concrete.
  - concrete.
  - cbn. concrete.
  - vm_compute. reflexivity.
  - left. vm_compute. reflexivity.
  - right. vm_compute.
    split; [split; congruence|]. split; [right; congruence | reflexivity].
Defined.

Lemma split_with_room_conserves_space_witness :
  exists m',
    __blkmngr_split_block (mem_after [0]) heap_base (heap_base + 144) 16
    = Ok m'
    /\ real_size m' (heap_base + 144) = 16
    /\ real_size m' (heap_base + 144 + OVERHEAD + 16) = 4 * M - OVERHEAD - 16.
Proof.
  destruct (split_with_room_conserves_space (mem_after [0]) heap_base (heap_base + 144)
              16) as (m' & Hrun & Hb & _ & Hs & _).
  - concrete.
  - concrete.
  - concrete.
  - lia.
  - reflexivity.
  - vm_compute. congruence.
  - concrete.
  - concrete.
  - vm_compute. reflexivity.
  - exists m'. split; [exact Hrun|]. split; [exact Hb|].
    rewrite Hs. vm_compute. reflexivity.
Defined.

Lemma split_leaves_successor_links_witness :
  exists m',
    __blkmngr_split_block (mem_after [64; 16; 0x400000A4]) heap_base
      (heap_base + 144) 16 = Ok m'
    /\ blk_next m' (heap_base + 144 + OVERHEAD + 16) = heap_base + 228
    /\ blk_prev m' (heap_base + 228) = heap_base + 144.
Proof.
  destruct (split_leaves_successor_links (mem_after [64; 16; 0x400000A4]) heap_base
              (heap_base + 144) 16 (heap_base + 228))
    as (m' & Hrun & Hn & Hp & _).
  - concrete.
  - concrete.
  - concrete.
  - lia.
  - concrete.
  - concrete.
  - vm_compute. reflexivity.
  - vm_compute. reflexivity.
  - concrete.
  - concrete.
  - concrete.
  - concrete.
  - exists m'. split; [exact Hrun|]. split; [exact Hn|].
    rewrite Hp. vm_compute. reflexivity.
Defined.

Lemma merge_absorbs_second_witness :
  exists m',
    __blkmngr_merge_blocks
      (BLOCK_SET_FREE (mem_after [16; 16]) (heap_base + 180)) heap_base
      (heap_base + 180) (heap_base + 216) = Ok m'
    /\ real_size m' (heap_base + 180) = 16 + OVERHEAD + (4 * M - 72)
    /\ hdr_free m' heap_base = NULL.
Proof.
  destruct (merge_absorbs_second
              (BLOCK_SET_FREE (mem_after [16; 16]) (heap_base + 180))
              heap_base (heap_base + 180) (heap_base + 216) [] [])
    as (m' & Hrun & Hd & Hsz & _).
  - concrete.
  - apply separatedb_separated. vm_compute. reflexivity.
  - apply header_apartb_apart. vm_compute. reflexivity.
  - apply dnodes_dchain. vm_compute. reflexivity.
  - concrete.
  - concrete.
  - concrete.
  - intros b [].
  - vm_compute. reflexivity.
  - vm_compute. reflexivity.
  - vm_compute. reflexivity.
  - vm_compute. reflexivity.
  - exists m'. split; [exact Hrun|]. split.
    + rewrite Hsz. vm_compute. reflexivity.
    + exact (dchain_nil_inv _ _ _ Hd).
Defined.

Lemma merge_leaves_successor_prev_witness :
  exists m',
    __blkmngr_merge_blocks
      (BLOCK_SET_FREE (mem_after [16; 16; 16; 0x400000C8]) (heap_base + 144))
      heap_base (heap_base + 144) (heap_base + 180) = Ok m'
    /\ blk_next m' (heap_base + 144) = heap_base + 216
    /\ blk_prev m' (heap_base + 216) = heap_base + 180.
Proof.
  destruct (merge_leaves_successor_prev
              (BLOCK_SET_FREE (mem_after [16; 16; 16; 0x400000C8])
                 (heap_base + 144))
              heap_base (heap_base + 144) (heap_base + 180) (heap_base + 216)
              [] [heap_base + 252])
    as (m' & Hrun & Hn & Hp).
  - concrete.
  - apply separatedb_separated. vm_compute. reflexivity.
  - apply header_apartb_apart. vm_compute. reflexivity.
  - apply dnodes_dchain. vm_compute. reflexivity.
  - concrete.
  - concrete.
  - concrete.
  - intros b [<- | []]. right. concrete.
  - vm_compute. reflexivity.
  - vm_compute. reflexivity.
  - vm_compute. reflexivity.
  - vm_compute. reflexivity.
  - concrete.
  - concrete.
  - concrete.
  - intros b [<- | [<- | []]]; right; concrete.
  - exists m'. split; [exact Hrun|]. split; [exact Hn|].
    rewrite Hp. vm_compute. reflexivity.
Defined.


Lemma malloc_exact_fit_unlinks_witness :
  exists st',
    __do_malloc 20 (state_after [16; 16; 0x400000A4]) heap_area 16
    = Ok (st', heap_base + 164)
    /\ heap_wf (mem st') heap_base
         [heap_base + 144; heap_base + 180; heap_base + 216]
         [heap_base + 216].
Proof.
  destruct (malloc_exact_fit_unlinks 20 (state_after [16; 16; 0x400000A4])
              heap_area 16 (heap_base + 144)
              [heap_base + 144; heap_base + 180; heap_base + 216]
              [] [heap_base + 216])
    as (st' & Hrun & _ & Hwf & _).
  - apply (heap_wf_intro 20); try (vm_compute; reflexivity). cbn. concrete.
  - discriminate.
  - vm_compute. reflexivity.
  - vm_compute. congruence.
  - simpl. lia.
  - simpl. lia.
  - exists st'. split; assumption.
Defined.


Lemma dump_returns_on_chains_witness :
  __blkmngr_dump 3 (mem_after [16; 16; 0x400000A4]) heap_base = Ok tt.
Proof.
  destruct (dump_returns_on_chains 3 (mem_after [16; 16; 0x400000A4])
              heap_base
              [heap_base + 144; heap_base + 180; heap_base + 216]
              [heap_base + 144; heap_base + 216]) as [H _].
  - discriminate.
  - apply (nodes_chain _ 16 5). vm_compute. reflexivity.
  - apply (nodes_chain _ 4 5). vm_compute. reflexivity.
  - simpl. lia.
  - simpl. lia.
  - exact H.
Defined.

Lemma returns_state_of (r : result (state * Z)) (p : Z) :
  returns r p = true -> r = Ok (state_of r, p).
Proof.
  destruct r as [[st q]| |]; cbn; intro H; try discriminate.
  apply Z.eqb_eq in H. subst q. reflexivity.
Qed.

Lemma malloc_result_accepted_by_free_witness :
  load32 (mem (state_of (malloc 20 boot 16))) (heap_base + 172 - 8)
  = MALLOC_MAGIC_NUMBER
  /\ free 20 (state_of (malloc 20 boot 16)) (heap_base + 172)
     = (sr <- sys_brk 20 (state_of (malloc 20 boot 16))
                (heap_base + 172 - sizeof_malloc_header_t) ;;
        Ok (fst sr)).
Proof.
  destruct (malloc_result_accepted_by_free 20 boot
              (state_of (malloc 20 boot 16)) 16 (heap_base + 172))
    as (_ & Hmagic & _ & Hfree).
  - apply returns_state_of. vm_compute. reflexivity.
  - vm_compute. congruence.
  - split; [exact Hmagic | exact Hfree].
Defined.

Lemma malloc_of_region_sized_request_frees_witness :
  malloc 20 (state_after [16]) (0x400000A4 - 8)
  = (st' <- __do_free 20 (state_after [16]) heap_area
              (wrap32 (0x400000A4 - 8 + sizeof_malloc_header_t)) ;;
     Ok (st', NULL)).
Proof.
  apply (malloc_of_region_sized_request_frees 20 (state_after [16]) heap_area
           (0x400000A4 - 8)).
  - vm_compute. reflexivity.
  - discriminate.
  - vm_compute. split; reflexivity.
Defined.
